(** * GitLab exporter: the paginated fetchers and the metrics renderer

    A shallow embedding of [project.go]: the data model ([Project],
    [ProjectStats], [MergeRequest]), the renderer [PrometheusStats] and the
    two paginated fetchers [GetMergeRequests] and [GetRepositories].

    Library calls are embedded by their documented behaviour:
    [strconv.Atoi] on a 64-bit platform, [fmt.Sprintf] for the verbs [%s] and
    [%d], [regexp.ReplaceAllString] for a one-character literal pattern,
    [log.Printf] and [log.Fatalf], and [http.Get] as a request against a
    server whose answer may depend on the requests seen so far.  The JSON
    decoder is a parameter of the development. *)

From Stdlib Require Import ZArith String Ascii List Lia.
From stdpp Require Import base strings list gmap pretty.

Local Open Scope Z_scope.

(** ** Characters that a string literal cannot hold directly *)

Definition nl : string := String "010"%char EmptyString.
Definition dq : string := String "034"%char EmptyString.
Definition slash : ascii := "/"%char.

(** ** Data model *)

(** Go's [int] fields are embedded as [Z]: they are filled by the decoder and
    printed, and the program does no arithmetic on them.  The one [int] the
    program computes, the next page index, comes from [Atoi], where the 64-bit
    range is checked. *)

(** [time.Time], reduced to what [Unix] reads: seconds since the epoch and
    the nanosecond offset within that second. *)
Record Time : Type := mkTime { wall_sec : Z; wall_nsec : Z }.

Definition Unix (t : Time) : Z := wall_sec t.

Record ProjectStats : Type := mkProjectStats {
  CommitCount : Z;
  StorageSize : Z;
  RepositorySize : Z;
  LfsObjectSize : Z;
  JobArtifactsSize : Z
}.

Record MergeRequest : Type := mkMergeRequest {
  Title : string;
  State : string;
  MergeStatus : string;
  TargetBranch : string;
  CreatedAt : Time;
  UpdatedAt : Time
}.

Record Project : Type := mkProject {
  Id : Z;
  PathWithNamespace : string;
  StarCount : Z;
  ForkCount : Z;
  OpenIssueCount : Z;
  LastActivityAt : Time;
  Statistics : ProjectStats;
  MergeRequests : list MergeRequest
}.

(** [func (project *Project) SetMergeRequests]: the pointer receiver is
    overwritten in place; here the updated record is returned and the caller
    stores it back where the pointer pointed. *)
Definition SetMergeRequests (project : Project) (mergeRequests : list MergeRequest) : Project :=
  {| Id := Id project;
     PathWithNamespace := PathWithNamespace project;
     StarCount := StarCount project;
     ForkCount := ForkCount project;
     OpenIssueCount := OpenIssueCount project;
     LastActivityAt := LastActivityAt project;
     Statistics := Statistics project;
     MergeRequests := mergeRequests |}.

(** ** Library functions used by the renderer *)

(** [regexp.MustCompile(`\/`).ReplaceAllString(src, repl)]: the pattern
    matches the single byte [/]; matches cannot overlap, and [repl] holds no
    [$], so every match is replaced by [repl] as it stands. *)
Fixpoint ReplaceAllString (pat : ascii) (src repl : string) : string :=
  match src with
  | EmptyString => EmptyString
  | String c rest =>
      if Ascii.eqb c pat
      then repl +:+ ReplaceAllString pat rest repl
      else String c (ReplaceAllString pat rest repl)
  end.

(** Operands of [fmt.Sprintf]: the program passes strings and ints only. *)
Inductive Arg : Type :=
  | ArgS (s : string)
  | ArgD (n : Z).

Definition arg_type_value (a : Arg) : string :=
  match a with
  | ArgS s => "string=" +:+ s
  | ArgD n => "int=" +:+ pretty n
  end.

Fixpoint extra_args (args : list Arg) : string :=
  match args with
  | [] => EmptyString
  | [a] => arg_type_value a
  | a :: rest => arg_type_value a +:+ ", " +:+ extra_args rest
  end.

Definition bad_verb (v : ascii) (a : Arg) : string :=
  "%!" +:+ String v ("(" +:+ arg_type_value a +:+ ")").

Definition format_verb (v : ascii) (a : Arg) : string :=
  match a with
  | ArgS s => if Ascii.eqb v "s" then s else if Ascii.eqb v "v" then s else bad_verb v a
  | ArgD n => if Ascii.eqb v "d" then pretty n else if Ascii.eqb v "v" then pretty n else bad_verb v a
  end.

(** [fmt.Sprintf]: literal bytes are copied, [%%] is a percent sign, a verb
    consumes the next operand, a verb with no operand left prints
    [%!v(MISSING)], and operands left over are reported at the end.  The
    program uses [%s] on strings and [%d] on ints only; flags, widths and
    the other verbs of Go are not embedded. *)
Fixpoint Sprintf (format : string) (args : list Arg) : string :=
  match format with
  | EmptyString =>
      match args with
      | [] => EmptyString
      | _ => "%!(EXTRA " +:+ extra_args args +:+ ")"
      end
  | String c rest =>
      if Ascii.eqb c "%" then
        match rest with
        | EmptyString => "%!(NOVERB)"
        | String v rest' =>
            if Ascii.eqb v "%" then String "%" (Sprintf rest' args)
            else match args with
                 | [] => "%!" +:+ String v ("(MISSING)" +:+ Sprintf rest' [])
                 | a :: args' => format_verb v a +:+ Sprintf rest' args'
                 end
        end
      else String c (Sprintf rest args)
  end.

(** ** The renderer *)

(** The format of a counter line,
    ["%s\n<name>{repo=\"%s\"} %d"] in the source. *)
Definition counter_format (name : string) : string :=
  "%s" +:+ nl +:+ name +:+ "{repo=" +:+ dq +:+ "%s" +:+ dq +:+ "} %d".

(** The format of a merge-request line. *)
Definition merge_request_format : string :=
  "%s" +:+ nl +:+ "gitlab_project_merge_request{repo=" +:+ dq +:+ "%s" +:+ dq
  +:+ ", state=" +:+ dq +:+ "%s" +:+ dq
  +:+ ", merge_status=" +:+ dq +:+ "%s" +:+ dq
  +:+ ", target_branch=" +:+ dq +:+ "%s" +:+ dq +:+ "} 1".

(** The label computed on the first line of [PrometheusStats]. *)
Definition repo_label (project : Project) : string :=
  ReplaceAllString slash (PathWithNamespace project) "___".

Definition PrometheusStats (project : Project) : string :=
  let path := repo_label project in
  let stats := EmptyString in
  let stats := Sprintf (counter_format "gitlab_project_stars")
                 [ArgS stats; ArgS path; ArgD (StarCount project)] in
  let stats := Sprintf (counter_format "gitlab_project_forks")
                 [ArgS stats; ArgS path; ArgD (ForkCount project)] in
  let stats := Sprintf (counter_format "gitlab_project_commit_count")
                 [ArgS stats; ArgS path; ArgD (CommitCount (Statistics project))] in
  let stats := Sprintf (counter_format "gitlab_project_storage_size")
                 [ArgS stats; ArgS path; ArgD (StorageSize (Statistics project))] in
  let stats := Sprintf (counter_format "gitlab_project_repository_size")
                 [ArgS stats; ArgS path; ArgD (RepositorySize (Statistics project))] in
  let stats := Sprintf (counter_format "gitlab_project_lfs_object_size")
                 [ArgS stats; ArgS path; ArgD (LfsObjectSize (Statistics project))] in
  let stats := Sprintf (counter_format "gitlab_project_job_artifacts_size")
                 [ArgS stats; ArgS path; ArgD (JobArtifactsSize (Statistics project))] in
  let stats :=
    fold_left
      (fun stats mergeRequest =>
         Sprintf merge_request_format
           [ArgS stats; ArgS path; ArgS (State mergeRequest);
            ArgS (MergeStatus mergeRequest); ArgS (TargetBranch mergeRequest)])
      (MergeRequests project) stats in
  let stats := Sprintf (counter_format "gitlab_project_last_activity")
                 [ArgS stats; ArgS path; ArgD (Unix (LastActivityAt project))] in
  stats.

(** ** Errors and [strconv.Atoi] *)

Inductive NumErrorKind : Type := ErrSyntax | ErrRange.

(** The [error] values the program can see: from [http.Get], from the JSON
    decoder, and [*strconv.NumError] from [Atoi]. *)
Inductive error : Type :=
  | TransportError (msg : string)
  | DecodeError (msg : string)
  | NumError (func num : string) (kind : NumErrorKind).

Definition maxUint64 : Z := 2 ^ 64 - 1.
Definition maxInt64 : Z := 2 ^ 63 - 1.
Definition minInt64 : Z := - 2 ^ 63.

Definition digit_value (c : ascii) : option Z :=
  let n := Z.of_N (N_of_ascii c) in
  if (48 <=? n) && (n <=? 57) then Some (n - 48) else None.

(** The digit loop of [strconv.ParseUint(s, 10, 64)]: a byte that is no
    digit is a syntax error, a value that leaves 64 bits a range error,
    whichever comes first from the left. *)
Fixpoint parse_digits (s : string) (n : Z) : Z + NumErrorKind :=
  match s with
  | EmptyString => inl n
  | String c rest =>
      match digit_value c with
      | None => inr ErrSyntax
      | Some d =>
          if maxUint64 <? n * 10 + d then inr ErrRange
          else parse_digits rest (n * 10 + d)
      end
  end.

(** [strconv.Atoi] where [int] has 64 bits: an optional sign, then at least
    one decimal digit, and the value must fit [int]. *)
Definition Atoi (s : string) : Z + error :=
  match s with
  | EmptyString => inr (NumError "Atoi" s ErrSyntax)
  | String c rest =>
      let neg := Ascii.eqb c "-" in
      let digits := if neg || Ascii.eqb c "+" then rest else s in
      match digits with
      | EmptyString => inr (NumError "Atoi" s ErrSyntax)
      | _ =>
          match parse_digits digits 0 with
          | inr kind => inr (NumError "Atoi" s kind)
          | inl un =>
              if neg then
                if - un <? minInt64 then inr (NumError "Atoi" s ErrRange) else inl (- un)
              else
                if maxInt64 <? un then inr (NumError "Atoi" s ErrRange) else inl un
          end
      end
  end.

(** ** The world the fetchers run in *)

(** [*http.Response], reduced to the two fields the program reads. *)
Record Response : Type := mkResponse {
  Header : gmap string (list string);
  Body : string
}.

(** What the standard logger was asked to write. *)
Inductive LogLine : Type :=
  | Printed (msg : string)
  | FatalLine (e : error).

(** The observable effects of a run: the URLs requested with [http.Get], in
    order, and the log. *)
Record World : Type := mkWorld {
  requests : list string;
  logged : list LogLine
}.

(** How a call ends: it returns, [log.Fatalf] ends the process, a run-time
    panic ends it, or the fuel of the model ran out before the loop ended. *)
Inductive Outcome (A : Type) : Type :=
  | Returns (a : A)
  | Fatal (e : error)
  | Panics (msg : string)
  | OutOfFuel.

Arguments Returns {A} a.
Arguments Fatal {A} e.
Arguments Panics {A} msg.
Arguments OutOfFuel {A}.

Definition M (A : Type) : Type := World -> Outcome A * World.

Definition ret {A : Type} (a : A) : M A := fun w => (Returns a, w).

Definition bind {A B : Type} (m : M A) (k : A -> M B) : M B :=
  fun w =>
    match m w with
    | (Returns a, w') => k a w'
    | (Fatal e, w') => (Fatal e, w')
    | (Panics msg, w') => (Panics msg, w')
    | (OutOfFuel, w') => (OutOfFuel, w')
    end.

Notation "'let*' x ':=' m 'in' k" := (bind m (fun x => k))
  (at level 10, x name, m at level 100, k at level 200, only parsing).

Definition panic {A : Type} (msg : string) : M A := fun w => (Panics msg, w).

Definition out_of_fuel {A : Type} : M A := fun w => (OutOfFuel, w).

(** [log.Printf(format, args...)]; the line is kept without the date the
    standard logger puts in front of it. *)
Definition log_Printf (format : string) (args : list Arg) : M unit :=
  fun w => (Returns tt,
            {| requests := requests w; logged := logged w ++ [Printed (Sprintf format args)] |}).

(** [log.Fatalf(err.Error())]: the message is written and the process exits
    with status 1; the caller never gets control back. *)
Definition log_Fatalf {A : Type} (e : error) : M A :=
  fun w => (Fatal e, {| requests := requests w; logged := logged w ++ [FatalLine e] |}).

(** [s[i]] on a slice: a run-time panic when [i] is out of range. *)
Definition slice_index {A : Type} (s : list A) (i : nat) : M A :=
  match s !! i with
  | Some x => ret x
  | None =>
      panic ("runtime error: index out of range [" +:+ pretty i
             +:+ "] with length " +:+ pretty (length s))
  end.

(** [h[key]] on a [map[string][]string]: the nil slice when the key is absent. *)
Definition map_index (h : gmap string (list string)) (key : string) : list string :=
  default [] (h !! key).

Definition merges_format : string :=
  "%s/api/v4/projects/%d/merge_requests?private_token=%s&per_page=100&statistics=1&page=%d".

Definition projects_format : string :=
  "%s/api/v4/projects?private_token=%s&per_page=100&statistics=1&page=%d".

Definition mergesUrl (gitlabUrl : string) (id : Z) (token : string) (page : Z) : string :=
  Sprintf merges_format [ArgS gitlabUrl; ArgD id; ArgS token; ArgD page].

Definition projectsUrl (gitlabUrl token : string) (page : Z) : string :=
  Sprintf projects_format [ArgS gitlabUrl; ArgS token; ArgD page].

Definition requesting_format : string := "Requesting %s" +:+ nl.

(** A URL of the project list of host [gitlabUrl] (and not of the merge
    requests of one of its projects). *)
Definition is_projects_url (gitlabUrl url : string) : bool :=
  String.prefix (gitlabUrl +:+ "/api/v4/projects?") url.

Section Fetchers.

(** The upstream server: its answer to a GET may depend on the requests made
    before ([history], oldest first).  [inr] is the error of [http.Get]. *)
Variable server : list string -> string -> Response + error.

(** [json.NewDecoder(body).Decode(&items)], one decoder per item type. *)
Variable decode_projects : string -> list Project + error.
Variable decode_merge_requests : string -> list MergeRequest + error.

(** [http.Get(url)]. *)
Definition http_Get (url : string) : M (Response + error) :=
  fun w => (Returns (server (requests w) url),
            {| requests := requests w ++ [url]; logged := logged w |}).

(** The [for true] loop of [GetMergeRequests]; [merge_requests] and [page]
    are the loop's variables. *)
Fixpoint GetMergeRequests_loop (fuel : nat) (project : Project) (gitlabUrl token : string)
    (merge_requests : list MergeRequest) (page : Z) : M (list MergeRequest) :=
  match fuel with
  | O => out_of_fuel
  | S fuel' =>
      let mergesUrl := mergesUrl gitlabUrl (Id project) token page in
      let* _ := log_Printf requesting_format [ArgS mergesUrl] in
      let* r := http_Get mergesUrl in
      match r with
      | inr error => log_Fatalf error
      | inl response =>
          match decode_merge_requests (Body response) with
          | inr error => log_Fatalf error
          | inl mergesInPage =>
              let merge_requests := merge_requests ++ mergesInPage in
              let* pageHeader := slice_index (map_index (Header response) "X-Next-Page") 0 in
              if decide (pageHeader = EmptyString) then ret merge_requests
              else
                match Atoi pageHeader with
                | inr error => log_Fatalf error
                | inl page' =>
                    GetMergeRequests_loop fuel' project gitlabUrl token merge_requests page'
                end
          end
      end
  end.

Definition GetMergeRequests (fuel : nat) (project : Project) (gitlabUrl token : string)
    : M (list MergeRequest) :=
  GetMergeRequests_loop fuel project gitlabUrl token [] 1.

(** The [for i := range projectsInPage] loop of [GetRepositories]: [indices]
    are the values of [i] still to come; slot [i] is read, its merge requests
    are fetched, and [SetMergeRequests] overwrites the slot in place. *)
Fixpoint attach_loop (fuelMR : nat) (gitlabUrl token : string) (indices : list nat)
    (projectsInPage : list Project) : M (list Project) :=
  match indices with
  | [] => ret projectsInPage
  | i :: indices' =>
      let* project := slice_index projectsInPage i in
      let* merge_requests := GetMergeRequests fuelMR project gitlabUrl token in
      attach_loop fuelMR gitlabUrl token indices'
        (<[i := SetMergeRequests project merge_requests]> projectsInPage)
  end.

(** The [for true] loop of [GetRepositories]; [projects] and [page] are the
    loop's variables.  [fuelMR] bounds each nested merge-request loop. *)
Fixpoint GetRepositories_loop (fuelMR fuel : nat) (gitlabUrl token : string)
    (projects : list Project) (page : Z) : M (list Project) :=
  match fuel with
  | O => out_of_fuel
  | S fuel' =>
      let projectsUrl := projectsUrl gitlabUrl token page in
      let* _ := log_Printf requesting_format [ArgS projectsUrl] in
      let* r := http_Get projectsUrl in
      match r with
      | inr error => log_Fatalf error
      | inl response =>
          match decode_projects (Body response) with
          | inr error => log_Fatalf error
          | inl projectsInPage =>
              let* projectsInPage :=
                attach_loop fuelMR gitlabUrl token
                  (seq 0 (length projectsInPage)) projectsInPage in
              let projects := projects ++ projectsInPage in
              let* pageHeader := slice_index (map_index (Header response) "X-Next-Page") 0 in
              if decide (pageHeader = EmptyString) then ret projects
              else
                match Atoi pageHeader with
                | inr error => log_Fatalf error
                | inl page' => GetRepositories_loop fuelMR fuel' gitlabUrl token projects page'
                end
          end
      end
  end.

Definition GetRepositories (fuelMR fuel : nat) (gitlabUrl token : string) : M (list Project) :=
  GetRepositories_loop fuelMR fuel gitlabUrl token [] 1.

(** ** Vocabulary for statements about the fetchers *)

(** The world after the URLs [urls] were requested in that order, each
    announced in the log the way both loops do it. *)
Definition after_requests (urls : list string) (w : World) : World :=
  {| requests := requests w ++ urls;
     logged := logged w
               ++ map (fun url => Printed (Sprintf requesting_format [ArgS url])) urls |}.

(** The server answers a GET of [url], whatever was requested before, with a
    response whose first [X-Next-Page] value is [signal]. *)
Definition answers (url : string) (body_ok : string -> Prop) (signal : string) : Prop :=
  forall history : list string,
    exists response : Response,
      server history url = inl response
      /\ body_ok (Body response)
      /\ exists more : list string,
           Header response !! "X-Next-Page" = Some (signal :: more).

Definition serves_merge_requests (url : string) (items : list MergeRequest)
    (signal : string) : Prop :=
  answers url (fun body => decode_merge_requests body = inl items) signal.

Definition serves_projects (url : string) (items : list Project) (signal : string) : Prop :=
  answers url (fun body => decode_projects body = inl items) signal.

(** The continuation signal of page [k] out of [N] (pages count from 1): the
    number [k + 1] before the last page, the empty string on the last. *)
Definition chain_signal (N k : nat) (signal : string) : Prop :=
  if decide (k < N)%nat
  then Atoi signal = inl (Z.of_nat k + 1)
  else signal = EmptyString.

(** The merge requests of project [id] are mocked as the pages [pages]. *)
Definition merge_pages_mocked (gitlabUrl token : string) (id : Z)
    (pages : list (list MergeRequest)) : Prop :=
  pages <> []
  /\ forall (k : nat) (items : list MergeRequest),
       pages !! k = Some items ->
       exists signal,
         serves_merge_requests (mergesUrl gitlabUrl id token (Z.of_nat k + 1)) items signal
         /\ chain_signal (length pages) (S k) signal.

(** The project list is mocked as the pages [pages]. *)
Definition project_pages_mocked (gitlabUrl token : string)
    (pages : list (list Project)) : Prop :=
  pages <> []
  /\ forall (k : nat) (items : list Project),
       pages !! k = Some items ->
       exists signal,
         serves_projects (projectsUrl gitlabUrl token (Z.of_nat k + 1)) items signal
         /\ chain_signal (length pages) (S k) signal.


(** An answer to a GET of [url] that lets a loop go on: there is a response,
    its body decodes as the item type of the endpoint, and its signal is
    there and is empty or an integer. *)
Definition acceptable (gitlabUrl url : string) (answer : Response + error) : Prop :=
  exists response : Response,
    answer = inl response
    /\ (if is_projects_url gitlabUrl url
        then exists items, decode_projects (Body response) = inl items
        else exists items, decode_merge_requests (Body response) = inl items)
    /\ exists signal more,
         Header response !! "X-Next-Page" = Some (signal :: more)
         /\ (signal = EmptyString \/ exists n, Atoi signal = inl n).

(** Every one of the requests [new], made one after the other after the
    requests [history], got an acceptable answer. *)
Fixpoint accepted_run (gitlabUrl : string) (history new : list string) : Prop :=
  match new with
  | [] => True
  | url :: rest =>
      acceptable gitlabUrl url (server history url)
      /\ accepted_run gitlabUrl (history ++ [url]) rest
  end.

(** The merge requests that [p] carries are what the merge-request fetcher
    returned for it, in a run that took place between the request histories
    [lo] and [hi]. *)
Definition fully_fetched (fuelMR : nat) (gitlabUrl token : string)
    (lo hi : list string) (p : Project) : Prop :=
  exists w1 w2 : World,
    lo `prefix_of` requests w1
    /\ requests w2 `prefix_of` hi
    /\ GetMergeRequests fuelMR p gitlabUrl token w1 = (Returns (MergeRequests p), w2).

End Fetchers.

Arguments after_requests urls w : simpl never.

(** What the part of a loop body after the decoding does with the header:
    panic, return, die, or go on with the next page. *)
Definition on_signal {A : Type} (response : Response) (done : list A) (w : World)
    (continue : Z -> Outcome (list A) * World) : Outcome (list A) * World :=
  match map_index (Header response) "X-Next-Page" !! 0%nat with
  | None =>
      (Panics ("runtime error: index out of range [" +:+ pretty 0%nat
               +:+ "] with length "
               +:+ pretty (length (map_index (Header response) "X-Next-Page"))), w)
  | Some pageHeader =>
      if decide (pageHeader = EmptyString) then (Returns done, w)
      else match Atoi pageHeader with
           | inr e => log_Fatalf e w
           | inl page' => continue page'
           end
  end.

(** The log line that ends a run, if any. *)
Definition last_words {A : Type} (out : Outcome A) : list LogLine :=
  match out with
  | Fatal e => [FatalLine e]
  | _ => []
  end.

Definition announced (urls : list string) : list LogLine :=
  map (fun url => Printed (Sprintf requesting_format [ArgS url])) urls.

(** The URLs of the first [n] pages of a project's merge requests. *)
Definition merge_page_urls (gitlabUrl token : string) (id : Z) (n : nat) : list string :=
  map (fun k => mergesUrl gitlabUrl id token (Z.of_nat k)) (seq 1 n).

(** A project with the given pages of merge requests attached. *)
Definition enriched (mr_pages : Z -> list (list MergeRequest)) (p : Project) : Project :=
  SetMergeRequests p (concat (mr_pages (Id p))).

(** The requests made for one project page: the page itself, then the
    merge-request pages of each of its projects, project by project. *)
Definition page_requests (gitlabUrl token : string)
    (mr_pages : Z -> list (list MergeRequest)) (k : nat) (items : list Project) : list string :=
  projectsUrl gitlabUrl token (Z.of_nat k)
  :: flat_map (fun p => merge_page_urls gitlabUrl token (Id p) (length (mr_pages (Id p))))
       items.

(** The requests made for the project pages [pages], the first of which is
    page [k]. *)
Fixpoint requests_from (gitlabUrl token : string)
    (mr_pages : Z -> list (list MergeRequest)) (k : nat) (pages : list (list Project))
    : list string :=
  match pages with
  | [] => []
  | items :: rest =>
      page_requests gitlabUrl token mr_pages k items
      ++ requests_from gitlabUrl token mr_pages (S k) rest
  end.

(** ** Spec-side reading of the rendered text *)

(** A metric line as the exposition format has it: a name, labels in
    order, and an integer sample. *)
Record MetricLine : Type := mkMetricLine {
  metric_name : string;
  metric_labels : list (string * string);
  metric_value : Z
}.

Definition render_label (kv : string * string) : string :=
  fst kv +:+ "=" +:+ dq +:+ snd kv +:+ dq.

Fixpoint join (sep : string) (parts : list string) : string :=
  match parts with
  | [] => EmptyString
  | [x] => x
  | x :: rest => x +:+ sep +:+ join sep rest
  end.

Definition render_line (l : MetricLine) : string :=
  metric_name l +:+ "{" +:+ join ", " (map render_label (metric_labels l))
  +:+ "} " +:+ pretty (metric_value l).

(** Each line is preceded by a newline. *)
Fixpoint render_lines (ls : list MetricLine) : string :=
  match ls with
  | [] => EmptyString
  | l :: rest => nl +:+ render_line l +:+ render_lines rest
  end.

Definition counter_line (name label : string) (value : Z) : MetricLine :=
  {| metric_name := name; metric_labels := [("repo", label)]; metric_value := value |}.

Definition merge_request_line (label : string) (mr : MergeRequest) : MetricLine :=
  {| metric_name := "gitlab_project_merge_request";
     metric_labels := [("repo", label); ("state", State mr);
                       ("merge_status", MergeStatus mr);
                       ("target_branch", TargetBranch mr)];
     metric_value := 1 |}.

(** The seven counters rendered before the merge requests. *)
Definition leading_counters (project : Project) : list MetricLine :=
  let label := repo_label project in
  [ counter_line "gitlab_project_stars" label (StarCount project);
    counter_line "gitlab_project_forks" label (ForkCount project);
    counter_line "gitlab_project_commit_count" label (CommitCount (Statistics project));
    counter_line "gitlab_project_storage_size" label (StorageSize (Statistics project));
    counter_line "gitlab_project_repository_size" label (RepositorySize (Statistics project));
    counter_line "gitlab_project_lfs_object_size" label (LfsObjectSize (Statistics project));
    counter_line "gitlab_project_job_artifacts_size" label
      (JobArtifactsSize (Statistics project)) ].

Definition last_activity_line (project : Project) : MetricLine :=
  counter_line "gitlab_project_last_activity" (repo_label project)
    (Unix (LastActivityAt project)).

(** The eight counter names. *)
Definition counter_names : list string :=
  [ "gitlab_project_stars"; "gitlab_project_forks"; "gitlab_project_commit_count";
    "gitlab_project_storage_size"; "gitlab_project_repository_size";
    "gitlab_project_lfs_object_size"; "gitlab_project_job_artifacts_size";
    "gitlab_project_last_activity" ].

(** Splitting at a byte, and the number of its occurrences. *)
Fixpoint split_on (sep : ascii) (s : string) : list string :=
  match s with
  | EmptyString => [EmptyString]
  | String c rest =>
      if Ascii.eqb c sep then EmptyString :: split_on sep rest
      else match split_on sep rest with
           | [] => [String c EmptyString]
           | first :: others => String c first :: others
           end
  end.

Fixpoint occurrences (c : ascii) (s : string) : nat :=
  match s with
  | EmptyString => O
  | String c' rest => (if Ascii.eqb c' c then 1 else 0)%nat + occurrences c rest
  end.

(** ** Mock servers *)

Definition page_response (body signal : string) : Response :=
  {| Header := {[ "X-Next-Page" := [signal] ]}; Body := body |}.

Fixpoint assoc {A : Type} (key : string) (table : list (string * A)) : option A :=
  match table with
  | [] => None
  | (k, v) :: rest => if decide (k = key) then Some v else assoc key rest
  end.

(** A server without memory, given by a table from URLs to responses; any
    other URL is refused. *)
Definition table_server (table : list (string * Response))
    (history : list string) (url : string) : Response + error :=
  match assoc url table with
  | Some response => inl response
  | None => inr (TransportError "connection refused")
  end.

(** A decoder given by a table from bodies to items. *)
Definition table_decode {A : Type} (table : list (string * list A)) (body : string)
    : list A + error :=
  match assoc body table with
  | Some items => inl items
  | None => inr (DecodeError "unexpected end of JSON input")
  end.

Definition no_world : World := {| requests := []; logged := [] |}.

Definition host : string := "https://git.example.com".
Definition tok : string := "tok123".

Definition epoch : Time := mkTime 0 0.

Definition mr (title state status branch : string) : MergeRequest :=
  mkMergeRequest title state status branch epoch epoch.

Definition m1 : MergeRequest := mr "one" "opened" "can_be_merged" "main".
Definition m2 : MergeRequest := mr "two" "merged" "can_be_merged" "main".
Definition m3 : MergeRequest := mr "three" "closed" "cannot_be_merged" "release/1.0".
Definition m4 : MergeRequest := mr "four" "opened" "unchecked" "main".

Definition proj (id : Z) (path : string) (stars forks : Z) : Project :=
  mkProject id path stars forks 0 (mkTime 1700000000 0) (mkProjectStats 0 0 0 0 0) [].

Definition pA : Project := proj 1 "group/a" 5 1.
Definition pB : Project := proj 2 "group/sub/b" 0 0.
Definition pC : Project := proj 3 "c" 2 0.

Definition demo_projects : string -> list Project + error :=
  table_decode [("projects-1", [pA; pB]); ("projects-2", [pC]); ("projects-none", [])].

Definition demo_merges : string -> list MergeRequest + error :=
  table_decode [("merges-a-1", [m1; m2]); ("merges-a-2", [m3]);
                ("merges-none", []); ("merges-c", [m4]); ("merges-three", [m1; m2; m3])].

(** Two project pages; project 1 has two pages of merge requests, project 2
    has none, project 3 has one. *)
Definition paged_server : list string -> string -> Response + error :=
  table_server
    [ (projectsUrl host tok 1, page_response "projects-1" "2");
      (projectsUrl host tok 2, page_response "projects-2" EmptyString);
      (mergesUrl host 1 tok 1, page_response "merges-a-1" "2");
      (mergesUrl host 1 tok 2, page_response "merges-a-2" EmptyString);
      (mergesUrl host 2 tok 1, page_response "merges-none" EmptyString);
      (mergesUrl host 3 tok 1, page_response "merges-c" EmptyString) ].

Definition paged_projects : list (list Project) := [[pA; pB]; [pC]].

Definition paged_merges (id : Z) : list (list MergeRequest) :=
  if decide (id = 1) then [[m1; m2]; [m3]]
  else if decide (id = 2) then [[]]
  else [[m4]].

(** One project page with two projects: three merge requests for the first,
    none for the second. *)
Definition nesting_server : list string -> string -> Response + error :=
  table_server
    [ (projectsUrl host tok 1, page_response "projects-1" EmptyString);
      (mergesUrl host 1 tok 1, page_response "merges-three" EmptyString);
      (mergesUrl host 2 tok 1, page_response "merges-none" EmptyString) ].

(** Page 1 of the project list (no projects) and page 1 of the merge
    requests of project 1 carry the signal [signal]; every other page ends
    its list. *)
Definition signal_server (signal : string) : list string -> string -> Response + error :=
  fun history url =>
    if decide (url = mergesUrl host 1 tok 1) then inl (page_response "merges-a-1" signal)
    else if decide (url = projectsUrl host tok 1)
         then inl (page_response "projects-none" signal)
         else if is_projects_url host url
              then inl (page_response "projects-none" EmptyString)
              else inl (page_response "merges-a-2" EmptyString).

(** A server that sends no [X-Next-Page] header at all. *)
Definition headerless_server : list string -> string -> Response + error :=
  fun history url =>
    if decide (url = projectsUrl host tok 1)
    then inl {| Header := ∅; Body := "projects-none" |}
    else inl {| Header := ∅; Body := "merges-a-1" |}.

(** ** Vocabulary for the further properties *)

Definition newline : ascii := "010"%char.

(** A project without its merge requests. *)
Definition strip (p : Project) : Project := SetMergeRequests p [].

(** What the renderer reads of a merge request. *)
Definition rendered_fields (m : MergeRequest) : string * string * string :=
  (State m, MergeStatus m, TargetBranch m).

(** The items decoded from the answers to the requests [new], made one
    after the other after the requests [history]; an answer counts when its
    URL is selected by [sel], and contributes nothing when it is an error or
    does not decode. *)
Fixpoint decoded_along {A : Type} (server : list string -> string -> Response + error)
    (decode : string -> list A + error) (sel : string -> bool)
    (history new : list string) : list A :=
  match new with
  | [] => []
  | url :: rest =>
      (if sel url then
         match server history url with
         | inl response =>
             match decode (Body response) with
             | inl items => items
             | inr _ => []
             end
         | inr _ => []
         end
       else [])
      ++ decoded_along server decode sel (history ++ [url]) rest
  end.

(** The last of the requests [new] was answered with the empty signal. *)
Definition ends_on_empty_signal (server : list string -> string -> Response + error)
    (history new : list string) : Prop :=
  exists (before : list string) (url : string) (response : Response) (more : list string),
    new = before ++ [url]
    /\ server (history ++ before) url = inl response
    /\ Header response !! "X-Next-Page" = Some (EmptyString :: more).

(** The URL holds the access token as its [private_token] parameter. *)
Definition carries_token (token url : string) : Prop :=
  exists front back : string, url = front +:+ "private_token=" +:+ token +:+ back.

(** The label as the exposition describes it: the pieces of the path
    between its slashes, joined by three underscores. *)
Definition slashes_to_underscores (path : string) : string :=
  join "___" (split_on slash path).

(** The metric lines of a project under the label [label]: the seven
    counters, one line per merge request, and the last-activity line. *)
Definition expected_lines (label : string) (project : Project) : list MetricLine :=
  [ counter_line "gitlab_project_stars" label (StarCount project);
    counter_line "gitlab_project_forks" label (ForkCount project);
    counter_line "gitlab_project_commit_count" label (CommitCount (Statistics project));
    counter_line "gitlab_project_storage_size" label (StorageSize (Statistics project));
    counter_line "gitlab_project_repository_size" label (RepositorySize (Statistics project));
    counter_line "gitlab_project_lfs_object_size" label (LfsObjectSize (Statistics project));
    counter_line "gitlab_project_job_artifacts_size" label
      (JobArtifactsSize (Statistics project)) ]
  ++ map (merge_request_line label) (MergeRequests project)
  ++ [ counter_line "gitlab_project_last_activity" label (Unix (LastActivityAt project)) ].

(** The lines of a text that start with the metric name [name]. *)
Definition lines_named (name : string) (pieces : list string) : list string :=
  filter (fun piece => String.prefix (name +:+ "{") piece = true) pieces.

(** The complete merge-request sequence of project [id], read off the
    server: [new] are GETs of the project's merge-request pages, made one
    after the other after the requests [history], starting at page [page],
    each answered with a body that decodes; every page but the last carries
    an integer signal, which is the index of the page requested next; the
    last carries the empty signal; and [mrs] are the items of these pages
    in order. *)
Fixpoint fetched_chain (server : list string -> string -> Response + error)
    (decode : string -> list MergeRequest + error) (gitlabUrl token : string) (id : Z)
    (history : list string) (page : Z) (new : list string) (mrs : list MergeRequest)
    : Prop :=
  match new with
  | [] => False
  | url :: rest =>
      url = mergesUrl gitlabUrl id token page
      /\ exists (response : Response) (items : list MergeRequest)
                (signal : string) (more : list string),
           server history url = inl response
           /\ decode (Body response) = inl items
           /\ Header response !! "X-Next-Page" = Some (signal :: more)
           /\ if decide (signal = EmptyString)
              then rest = [] /\ mrs = items
              else exists (n : Z) (later : list MergeRequest),
                     Atoi signal = inl n
                     /\ mrs = items ++ later
                     /\ fetched_chain server decode gitlabUrl token id
                          (history ++ [url]) n rest later
  end.

(** The merge requests that [p] carries are the complete sequence of its
    project, fetched from page 1 on by requests made between the request
    histories [lo] and [hi]. *)
Definition carries_complete_sequence (server : list string -> string -> Response + error)
    (decode : string -> list MergeRequest + error) (gitlabUrl token : string)
    (lo hi : list string) (p : Project) : Prop :=
  exists history new : list string,
    lo `prefix_of` history
    /\ (history ++ new) `prefix_of` hi
    /\ fetched_chain server decode gitlabUrl token (Id p) history 1 new (MergeRequests p).


(** A project with one merge request whose target branch holds a newline. *)
Definition pA_two_lines : Project :=
  SetMergeRequests pA
    [mr "one" "opened" "can_be_merged" ("main" +:+ nl +:+ "gitlab_project_stars{")].

(** Every URL is the same page, which points to itself. *)
Definition looping_server : list string -> string -> Response + error :=
  fun history url => inl (page_response "merges-a-1" "1").

Definition trio_projects : string -> list Project + error :=
  table_decode [("projects-3", [pA; pB; pC])].

(** One project page with three projects; the merge requests of the first
    are served, any other URL is refused. *)
Definition refusing_server : list string -> string -> Response + error :=
  table_server
    [ (projectsUrl host tok 1, page_response "projects-3" EmptyString);
      (mergesUrl host 1 tok 1, page_response "merges-c" EmptyString) ].

(** Two pages of merge requests for project 1 are served, the second
    announces a third, which is refused. *)
Definition truncated_server : list string -> string -> Response + error :=
  table_server
    [ (mergesUrl host 1 tok 1, page_response "merges-a-1" "2");
      (mergesUrl host 1 tok 2, page_response "merges-a-2" "3") ].

(** [pA] with everything changed that the renderer does not read. *)
Definition pA_relabelled : Project :=
  {| Id := 77; PathWithNamespace := "group/a"; StarCount := 5; ForkCount := 1;
     OpenIssueCount := 12; LastActivityAt := mkTime 1700000000 999;
     Statistics := mkProjectStats 0 0 0 0 0;
     MergeRequests := [mkMergeRequest "renamed" "opened" "can_be_merged" "main"
                         (mkTime 5 0) (mkTime 6 0)] |}.

(** * Facts about strings *)

Lemma string_app_cons (x : ascii) (a b : string) : String x a +:+ b = String x (a +:+ b).
Proof. reflexivity. Qed.

Lemma string_app_nil_l (a : string) : EmptyString +:+ a = a.
Proof. reflexivity. Qed.

Lemma string_app_assoc (a b c : string) : (a +:+ b) +:+ c = a +:+ (b +:+ c).
Proof. induction a as [|x a IH]; [reflexivity|]. rewrite !string_app_cons. by rewrite IH. Qed.

Lemma string_app_nil_r (a : string) : a +:+ EmptyString = a.
Proof. induction a as [|x a IH]; [reflexivity|]. rewrite string_app_cons. by rewrite IH. Qed.

Lemma occurrences_app (c : ascii) (a b : string) :
  occurrences c (a +:+ b) = (occurrences c a + occurrences c b)%nat.
Proof. induction a as [|x a IH]; [reflexivity|]. rewrite string_app_cons. cbn. rewrite IH. lia. Qed.

Lemma string_length_app (a b : string) :
  String.length (a +:+ b) = (String.length a + String.length b)%nat.
Proof. induction a as [|x a IH]; [reflexivity|]. rewrite string_app_cons. cbn. by rewrite IH. Qed.

(** * The label: [ReplaceAllString] *)

Lemma ReplaceAllString_app (pat : ascii) (a b repl : string) :
  ReplaceAllString pat (a +:+ b) repl
  = ReplaceAllString pat a repl +:+ ReplaceAllString pat b repl.
Proof.
  induction a as [|x a IH]; [reflexivity|].
  rewrite string_app_cons. cbn. rewrite IH. destruct (Ascii.eqb x pat); [|reflexivity].
  by rewrite string_app_assoc.
Qed.

Lemma ReplaceAllString_absent (pat : ascii) (s repl : string) :
  occurrences pat s = 0%nat -> ReplaceAllString pat s repl = s.
Proof.
  induction s as [|x s IH]; [reflexivity|].
  cbn. destruct (Ascii.eqb x pat); [discriminate|].
  intros H. by rewrite IH.
Qed.

Lemma ReplaceAllString_clean (pat : ascii) (s repl : string) :
  occurrences pat repl = 0%nat -> occurrences pat (ReplaceAllString pat s repl) = 0%nat.
Proof.
  intros Hrepl. induction s as [|x s IH]; [reflexivity|].
  cbn. destruct (Ascii.eqb x pat) eqn:E.
  - rewrite occurrences_app. lia.
  - cbn. rewrite E. exact IH.
Qed.

Lemma ReplaceAllString_idempotent (pat : ascii) (s repl : string) :
  occurrences pat repl = 0%nat ->
  ReplaceAllString pat (ReplaceAllString pat s repl) repl = ReplaceAllString pat s repl.
Proof.
  intros Hrepl. apply ReplaceAllString_absent. by apply ReplaceAllString_clean.
Qed.

Lemma split_on_nonempty (sep : ascii) (s : string) : split_on sep s <> [].
Proof.
  destruct s as [|c s]; [discriminate|].
  cbn. destruct (Ascii.eqb c sep); [discriminate|].
  destruct (split_on sep s); discriminate.
Qed.

Lemma split_on_length (sep : ascii) (s : string) :
  length (split_on sep s) = S (occurrences sep s).
Proof.
  induction s as [|c s IH]; [reflexivity|].
  cbn. destruct (Ascii.eqb c sep); cbn.
  - by rewrite IH.
  - destruct (split_on sep s) eqn:E; [by destruct (split_on_nonempty sep s)|].
    exact IH.
Qed.

Lemma split_on_pieces (sep : ascii) (s : string) :
  Forall (fun piece => occurrences sep piece = 0%nat) (split_on sep s).
Proof.
  induction s as [|c s IH]; [by repeat constructor|].
  cbn. destruct (Ascii.eqb c sep) eqn:E.
  - by constructor.
  - destruct (split_on sep s) as [|first others]; [repeat constructor; cbn; by rewrite E|].
    inversion IH; subst. constructor; [|done]. cbn. by rewrite E.
Qed.

Lemma ReplaceAllString_join (pat : ascii) (s repl : string) :
  ReplaceAllString pat s repl = join repl (split_on pat s).
Proof.
  induction s as [|c s IH]; [reflexivity|].
  cbn. destruct (Ascii.eqb c pat).
  - rewrite IH. destruct (split_on pat s) eqn:E; [by destruct (split_on_nonempty pat s)|].
    reflexivity.
  - rewrite IH. destruct (split_on pat s) as [|first [|second others]]; reflexivity.
Qed.

Lemma ReplaceAllString_length (pat : ascii) (s repl : string) :
  String.length (ReplaceAllString pat s repl)
  = (String.length s - occurrences pat s + occurrences pat s * String.length repl)%nat.
Proof.
  induction s as [|c s IH]; [reflexivity|].
  assert (occurrences pat s <= String.length s)%nat as Hle.
  { clear IH. induction s as [|d s IH]; cbn; [lia|]. destruct (Ascii.eqb d pat); lia. }
  cbn. destruct (Ascii.eqb c pat); cbn.
  - rewrite string_length_app, IH. lia.
  - rewrite IH. lia.
Qed.

(** C6. For every project whose namespaced path holds at least one slash,
    the label computed by the renderer is the path with every slash replaced
    by three underscores (the pieces between the slashes, joined by three
    underscores; one cut per slash, so the label is two bytes longer per
    slash and differs from the path); no slash is left in it, and
    normalising the label again returns the label itself. *)
Theorem path_normalization_idempotent (project : Project) :
  (0 < occurrences slash (PathWithNamespace project))%nat ->
  let path := PathWithNamespace project in
  let label := repo_label project in
  label = join "___" (split_on slash path)
  /\ length (split_on slash path) = S (occurrences slash path)
  /\ Forall (fun piece => occurrences slash piece = 0%nat) (split_on slash path)
  /\ String.length label = (String.length path + 2 * occurrences slash path)%nat
  /\ occurrences slash label = 0%nat
  /\ label <> path
  /\ ReplaceAllString slash label "___" = label.
Proof.
  intros Hslash path label. subst path label. unfold repo_label.
  repeat split.
  - apply ReplaceAllString_join.
  - apply split_on_length.
  - apply split_on_pieces.
  - rewrite ReplaceAllString_length.
    assert (occurrences slash (PathWithNamespace project)
            <= String.length (PathWithNamespace project))%nat as Hle.
    { induction (PathWithNamespace project) as [|d s IH]; cbn; [lia|].
      destruct (Ascii.eqb d slash); cbn in *; lia. }
    cbn [String.length]. lia.
  - by apply ReplaceAllString_clean.
  - intros Heq.
    assert (occurrences slash (ReplaceAllString slash (PathWithNamespace project) "___") = 0%nat)
      as H0 by (by apply ReplaceAllString_clean).
    rewrite Heq in H0. lia.
  - by apply ReplaceAllString_idempotent.
Qed.

Lemma path_normalization_idempotent_witness :
  repo_label pB = "group___sub___b"
  /\ ReplaceAllString slash (repo_label pB) "___" = repo_label pB.
Proof.
  assert (0 < occurrences slash (PathWithNamespace pB))%nat as H by (vm_compute; lia).
  pose proof (path_normalization_idempotent pB H) as T.
  cbv zeta in T. destruct T as (_ & _ & _ & _ & _ & _ & Hidem).
  split; [reflexivity | exact Hidem].
Defined.

(** * The rendered text *)

Lemma render_lines_app (xs ys : list MetricLine) :
  render_lines (xs ++ ys) = render_lines xs +:+ render_lines ys.
Proof.
  induction xs as [|x xs IH]; [reflexivity|].
  cbn [app render_lines]. rewrite IH. by rewrite !string_app_assoc.
Qed.

Lemma Sprintf_merge_request (stats path : string) (m : MergeRequest) :
  Sprintf merge_request_format
    [ArgS stats; ArgS path; ArgS (State m); ArgS (MergeStatus m); ArgS (TargetBranch m)]
  = stats +:+ nl +:+ render_line (merge_request_line path m).
Proof.
  cbv [render_line merge_request_line join map render_label fst snd
       metric_name metric_labels metric_value].
  rewrite !string_app_assoc. reflexivity.
Qed.

(** The same for a counter line; the name must be a literal for [Sprintf]
    to run through the format. *)
Ltac counter_step :=
  match goal with
  | |- context [Sprintf (counter_format ?name) [ArgS _; ArgS _; ArgD _]] =>
      let H := fresh "Hline" in
      assert (forall (stats path : string) (v : Z),
                 Sprintf (counter_format name) [ArgS stats; ArgS path; ArgD v]
                 = stats +:+ render_lines [counter_line name path v]) as H
        by (intros stats path v;
            cbv [render_lines render_line counter_line join map render_label fst snd
                 metric_name metric_labels metric_value];
            rewrite ?string_app_assoc; reflexivity);
      rewrite H; clear H
  end.

Lemma fold_merge_requests (path : string) (mrs : list MergeRequest) (stats : string) :
  fold_left
    (fun stats mergeRequest =>
       Sprintf merge_request_format
         [ArgS stats; ArgS path; ArgS (State mergeRequest);
          ArgS (MergeStatus mergeRequest); ArgS (TargetBranch mergeRequest)])
    mrs stats
  = stats +:+ render_lines (map (merge_request_line path) mrs).
Proof.
  revert stats. induction mrs as [|m mrs IH]; intros stats.
  - cbn. by rewrite string_app_nil_r.
  - cbn [fold_left map render_lines]. rewrite IH, Sprintf_merge_request.
    by rewrite !string_app_assoc.
Qed.

Lemma PrometheusStats_lines (project : Project) :
  PrometheusStats project
  = render_lines (leading_counters project
                  ++ map (merge_request_line (repo_label project)) (MergeRequests project)
                  ++ [last_activity_line project]).
Proof.
  unfold PrometheusStats. cbv zeta.
  rewrite fold_merge_requests.
  repeat counter_step.
  rewrite !render_lines_app. unfold leading_counters, last_activity_line.
  cbn [render_lines]. rewrite ?string_app_assoc, ?string_app_nil_r, ?string_app_nil_l.
  reflexivity.
Qed.

(** Decimal numerals hold digits and at most a leading minus sign. *)
Lemma pretty_N_go_occurrences (c : ascii) (x : N) (s : string) :
  Ascii.is_nat c = None ->
  occurrences c (pretty_N_go x s) = occurrences c s.
Proof.
  intros Hc. revert s. induction (N.lt_wf_0 x) as [x _ IH]; intros s.
  destruct (decide (x = 0)%N) as [->|Hx].
  - by rewrite pretty_N_go_0.
  - rewrite pretty_N_go_step by lia.
    rewrite IH by (apply N.div_lt; lia).
    cbn [occurrences].
    assert (Ascii.eqb (pretty_N_char (x `mod` 10)) c = false) as ->; [|reflexivity].
    apply Ascii.eqb_neq. intros <-.
    unfold pretty_N_char in Hc. by repeat case_match.
Qed.

Lemma pretty_Z_occurrences (c : ascii) (z : Z) :
  Ascii.is_nat c = None -> c <> "-"%char ->
  occurrences c (pretty z) = 0%nat.
Proof.
  intros Hc Hminus.
  assert (forall p : positive, occurrences c (pretty p) = 0%nat) as Hpos.
  { intros p. unfold pretty, pretty_positive, pretty, pretty_N.
    destruct (decide (N.pos p = 0)%N); [lia|].
    by rewrite pretty_N_go_occurrences. }
  destruct z as [|p|p]; unfold pretty, pretty_Z.
  - cbn [occurrences]. destruct (Ascii.eqb "0" c) eqn:E; [|reflexivity].
    apply Ascii.eqb_eq in E. subst c. discriminate.
  - apply Hpos.
  - rewrite occurrences_app, Hpos. cbn [occurrences].
    destruct (Ascii.eqb "-" c) eqn:E; [|reflexivity].
    apply Ascii.eqb_eq in E. congruence.
Qed.

(** C10. For every project the rendered text starts with a newline, and it
    ends with a newline followed by the last-activity line: the seven other
    counter lines and every merge-request line come before it.  Each
    merge-request line has the sample value 1 and ends in it.  When the label
    holds no newline, neither does the last-activity line, so it is the last
    line of the text. *)
Theorem last_activity_line_is_final (project : Project) :
  let label := repo_label project in
  let mr_lines := map (merge_request_line label) (MergeRequests project) in
  let earlier := leading_counters project ++ mr_lines in
  (exists rest, PrometheusStats project = nl +:+ rest)
  /\ PrometheusStats project
     = render_lines earlier +:+ nl +:+ render_line (last_activity_line project)
  /\ length earlier = (7 + length (MergeRequests project))%nat
  /\ metric_name (last_activity_line project) = "gitlab_project_last_activity"
  /\ Forall (fun l => metric_value l = 1
                      /\ exists front, render_line l = front +:+ "} 1") mr_lines
  /\ (occurrences "010"%char label = 0%nat ->
      occurrences "010"%char (render_line (last_activity_line project)) = 0%nat).
Proof.
  intros label mr_lines earlier.
  assert (PrometheusStats project
          = render_lines earlier +:+ nl +:+ render_line (last_activity_line project)) as Htext.
  { rewrite PrometheusStats_lines. subst earlier mr_lines label.
    rewrite app_assoc, render_lines_app. cbn [render_lines].
    by rewrite string_app_nil_r. }
  repeat split.
  - rewrite Htext. subst earlier. unfold leading_counters.
    cbn [app render_lines]. rewrite !string_app_assoc. eauto.
  - exact Htext.
  - subst earlier mr_lines. rewrite length_app, length_map. cbn. lia.
  - subst mr_lines. apply Forall_forall. intros l Hl.
    apply list_elem_of_In, in_map_iff in Hl as (m & <- & _).
    split; [reflexivity|].
    exists ("gitlab_project_merge_request{"
            +:+ join ", " (map render_label (metric_labels (merge_request_line label m)))).
    unfold render_line. cbn [merge_request_line metric_name metric_labels metric_value].
    rewrite !string_app_assoc. reflexivity.
  - intros Hlabel. unfold render_line, last_activity_line, counter_line.
    cbn [metric_name metric_labels metric_value map join render_label fst snd].
    unfold render_label. cbn [fst snd].
    rewrite !occurrences_app. subst label. rewrite Hlabel.
    rewrite pretty_Z_occurrences by (reflexivity || discriminate).
    reflexivity.
Qed.

(** * The fetch loops *)

Lemma after_requests_nil (w : World) : after_requests [] w = w.
Proof. destruct w. unfold after_requests. cbn. by rewrite !app_nil_r. Qed.

Lemma after_requests_app (us vs : list string) (w : World) :
  after_requests (us ++ vs) w = after_requests vs (after_requests us w).
Proof. unfold after_requests. cbn. by rewrite map_app, !app_assoc. Qed.

Lemma after_requests_cons (u : string) (us : list string) (w : World) :
  after_requests (u :: us) w = after_requests us (after_requests [u] w).
Proof. apply (after_requests_app [u] us). Qed.

Lemma requests_after (us : list string) (w : World) :
  requests (after_requests us w) = requests w ++ us.
Proof. reflexivity. Qed.

Lemma Atoi_empty : Atoi EmptyString = inr (NumError "Atoi" EmptyString ErrSyntax).
Proof. reflexivity. Qed.

Lemma Atoi_inl_nonempty (s : string) (n : Z) : Atoi s = inl n -> s <> EmptyString.
Proof. intros H ->. discriminate. Qed.

(** ** [Atoi] reads back what [%d] prints *)

Lemma parse_digits_app (a b : string) (n : Z) :
  parse_digits (a +:+ b) n
  = match parse_digits a n with
    | inl v => parse_digits b v
    | inr kind => inr kind
    end.
Proof.
  revert n. induction a as [|c a IH]; intros n; [reflexivity|].
  rewrite string_app_cons. cbn [parse_digits].
  destruct (digit_value c); [|reflexivity].
  destruct (maxUint64 <? n * 10 + z); [reflexivity|]. apply IH.
Qed.

Lemma pretty_N_go_app (x : N) (s : string) :
  pretty_N_go x s = pretty_N_go x EmptyString +:+ s.
Proof.
  revert s. induction (N.lt_wf_0 x) as [x _ IH]; intros s.
  destruct (decide (x = 0)%N) as [->|Hx]; [by rewrite !pretty_N_go_0|].
  assert (x `div` 10 < x)%N as Hlt by (apply N.div_lt; lia).
  rewrite !(pretty_N_go_step x) by lia.
  rewrite (IH _ Hlt (String _ s)), (IH _ Hlt (String _ EmptyString)).
  by rewrite string_app_assoc.
Qed.

Lemma digit_value_pretty_N_char (d : N) :
  (d < 10)%N -> digit_value (pretty_N_char d) = Some (Z.of_N d).
Proof.
  intros Hd.
  assert (d = 0 \/ d = 1 \/ d = 2 \/ d = 3 \/ d = 4 \/ d = 5 \/ d = 6 \/ d = 7
          \/ d = 8 \/ d = 9)%N as H by lia.
  repeat (destruct H as [->|H]; [reflexivity|]). by subst.
Qed.

Lemma parse_digits_pretty_N_go (x : N) :
  Z.of_N x <= maxUint64 ->
  parse_digits (pretty_N_go x EmptyString) 0 = inl (Z.of_N x).
Proof.
  induction (N.lt_wf_0 x) as [x _ IH]; intros Hmax.
  destruct (decide (x = 0)%N) as [->|Hx]; [by rewrite pretty_N_go_0|].
  assert (Z.of_N x = Z.of_N (x `div` 10) * 10 + Z.of_N (x `mod` 10)) as Hdm.
  { pose proof (N.div_mod x 10 ltac:(done)) as Hx10.
    rewrite Hx10 at 1. rewrite N2Z.inj_add, N2Z.inj_mul.
    generalize (Z.of_N (x `div` 10)) (Z.of_N (x `mod` 10)). intros a b. lia. }
  assert (0 <= Z.of_N (x `mod` 10)) as Hmod by apply N2Z.is_nonneg.
  assert (0 < x)%N as Hpos by (by apply N.neq_0_lt_0).
  rewrite pretty_N_go_step, pretty_N_go_app, parse_digits_app by exact Hpos.
  rewrite IH; [|by apply N.div_lt|].
  2:{ rewrite Hdm in Hmax. unfold maxUint64 in *. revert Hmax Hmod.
      generalize (Z.of_N (x `div` 10)) (Z.of_N (x `mod` 10)). intros a b. lia. }
  cbn [parse_digits].
  rewrite digit_value_pretty_N_char by (by apply N.mod_lt).
  rewrite <- Hdm.
  destruct (maxUint64 <? Z.of_N x) eqn:E; [|reflexivity].
  apply Z.ltb_lt in E. revert E Hmax. generalize (Z.of_N x). intros a. lia.
Qed.

Lemma pretty_positive_digits (p : positive) :
  exists (c : ascii) (rest : string),
    pretty p = String c rest
    /\ Ascii.eqb c "-" = false /\ Ascii.eqb c "+" = false
    /\ (Z.pos p <= maxUint64 -> parse_digits (String c rest) 0 = inl (Z.pos p)).
Proof.
  unfold pretty, pretty_positive, pretty, pretty_N.
  destruct (decide (N.pos p = 0)%N); [lia|].
  pose proof (pretty_N_go_occurrences "-" (N.pos p) EmptyString eq_refl) as Hminus.
  pose proof (pretty_N_go_occurrences "+" (N.pos p) EmptyString eq_refl) as Hplus.
  assert (pretty_N_go (N.pos p) EmptyString
          = pretty_N_go (N.pos p `div` 10) EmptyString
            +:+ String (pretty_N_char (N.pos p `mod` 10)) EmptyString) as Hstep.
  { rewrite pretty_N_go_step by lia. apply pretty_N_go_app. }
  destruct (pretty_N_go (N.pos p) EmptyString) as [|c rest] eqn:Hs.
  { destruct (pretty_N_go (N.pos p `div` 10) EmptyString);
      rewrite ?string_app_cons, ?string_app_nil_l in Hstep; discriminate. }
  exists c, rest. cbn [occurrences] in Hminus, Hplus.
  split_and!; [done | by destruct (Ascii.eqb c "-") | by destruct (Ascii.eqb c "+") |].
  intros Hmax. rewrite <- Hs. by apply (parse_digits_pretty_N_go (N.pos p)).
Qed.

(** Every [int] printed with [%d] is read back by [Atoi]. *)
Lemma Atoi_pretty (n : Z) :
  minInt64 <= n <= maxInt64 -> Atoi (pretty n) = inl n.
Proof.
  intros Hn. unfold minInt64, maxInt64 in Hn.
  destruct n as [|p|p]; [reflexivity| |].
  - destruct (pretty_positive_digits p) as (c & rest & Hs & Hminus & Hplus & Hparse).
    unfold pretty, pretty_Z. rewrite Hs. unfold Atoi. rewrite Hminus, Hplus.
    cbn [orb]. rewrite Hparse by (unfold maxUint64; lia).
    destruct (maxInt64 <? Z.pos p) eqn:E; [|reflexivity].
    apply Z.ltb_lt in E. unfold maxInt64 in E. lia.
  - destruct (pretty_positive_digits p) as (c & rest & Hs & _ & _ & Hparse).
    unfold pretty, pretty_Z. rewrite Hs. rewrite string_app_cons, string_app_nil_l.
    unfold Atoi. change (Ascii.eqb "-" "-") with true. cbn [orb].
    rewrite Hparse by (unfold maxUint64; lia).
    destruct (- Z.pos p <? minInt64) eqn:E; [|reflexivity].
    apply Z.ltb_lt in E. unfold minInt64 in E. lia.
Qed.

Section FetcherFacts.

Variable server : list string -> string -> Response + error.
Variable decode_projects : string -> list Project + error.
Variable decode_merge_requests : string -> list MergeRequest + error.

Local Abbreviation MRloop := (GetMergeRequests_loop server decode_merge_requests).
Local Abbreviation GetMRs := (GetMergeRequests server decode_merge_requests).
Local Abbreviation attach := (attach_loop server decode_merge_requests).
Local Abbreviation Rloop := (GetRepositories_loop server decode_projects decode_merge_requests).
Local Abbreviation GetRepos := (GetRepositories server decode_projects decode_merge_requests).

(** One iteration of the merge-request loop, spelled out. *)
Lemma GetMergeRequests_loop_unfold (fuel : nat) (p : Project) (g t : string)
    (acc : list MergeRequest) (page : Z) (w : World) :
  MRloop (S fuel) p g t acc page w
  = let url := mergesUrl g (Id p) t page in
    let w1 := after_requests [url] w in
    match server (requests w) url with
    | inr e => log_Fatalf e w1
    | inl response =>
        match decode_merge_requests (Body response) with
        | inr e => log_Fatalf e w1
        | inl items =>
            on_signal response (acc ++ items) w1
              (fun page' => MRloop fuel p g t (acc ++ items) page' w1)
        end
    end.
Proof.
  cbn [GetMergeRequests_loop]. unfold bind, log_Printf, http_Get, on_signal, slice_index.
  cbn [requests logged]. cbv zeta.
  destruct (server (requests w) (mergesUrl g (Id p) t page)) as [response|e]; [|reflexivity].
  destruct (decode_merge_requests (Body response)) as [items|e]; [|reflexivity].
  destruct (map_index (Header response) "X-Next-Page" !! 0%nat) as [sig|]; [|reflexivity].
  unfold ret. destruct (decide (sig = EmptyString)); [reflexivity|].
  destruct (Atoi sig); reflexivity.
Qed.

(** One iteration of the project loop, spelled out. *)
Lemma GetRepositories_loop_unfold (fuelMR fuel : nat) (g t : string)
    (acc : list Project) (page : Z) (w : World) :
  Rloop fuelMR (S fuel) g t acc page w
  = let url := projectsUrl g t page in
    let w1 := after_requests [url] w in
    match server (requests w) url with
    | inr e => log_Fatalf e w1
    | inl response =>
        match decode_projects (Body response) with
        | inr e => log_Fatalf e w1
        | inl items =>
            match attach fuelMR g t (seq 0 (length items)) items w1 with
            | (Returns items', w2) =>
                on_signal response (acc ++ items') w2
                  (fun page' => Rloop fuelMR fuel g t (acc ++ items') page' w2)
            | (Fatal e, w2) => (Fatal e, w2)
            | (Panics msg, w2) => (Panics msg, w2)
            | (OutOfFuel, w2) => (OutOfFuel, w2)
            end
        end
    end.
Proof.
  cbn [GetRepositories_loop]. unfold bind at 1 2, log_Printf, http_Get.
  cbn [requests logged]. cbv zeta.
  destruct (server (requests w) (projectsUrl g t page)) as [response|e]; [|reflexivity].
  destruct (decode_projects (Body response)) as [items|e]; [|reflexivity].
  unfold bind at 1.
  fold (after_requests [projectsUrl g t page] w).
  destruct (attach fuelMR g t (seq 0 (length items)) items _) as [[items'|e|msg|] w2];
    try reflexivity.
  unfold bind, on_signal, slice_index.
  destruct (map_index (Header response) "X-Next-Page" !! 0%nat) as [sig|]; [|reflexivity].
  unfold ret. destruct (decide (sig = EmptyString)); [reflexivity|].
  destruct (Atoi sig); reflexivity.
Qed.

(** One iteration of the loop over the projects of a page. *)
Lemma attach_loop_unfold (fuelMR : nat) (g t : string) (i : nat) (indices : list nat)
    (items : list Project) (w : World) :
  attach fuelMR g t (i :: indices) items w
  = match items !! i with
    | None =>
        (Panics ("runtime error: index out of range [" +:+ pretty i
                 +:+ "] with length " +:+ pretty (length items)), w)
    | Some p =>
        match GetMRs fuelMR p g t w with
        | (Returns mrs, w1) =>
            attach fuelMR g t indices (<[i := SetMergeRequests p mrs]> items) w1
        | (Fatal e, w1) => (Fatal e, w1)
        | (Panics msg, w1) => (Panics msg, w1)
        | (OutOfFuel, w1) => (OutOfFuel, w1)
        end
    end.
Proof.
  cbn [attach_loop]. unfold bind at 1, slice_index.
  destruct (items !! i) as [p|]; [|reflexivity].
  unfold ret, bind. reflexivity.
Qed.

Lemma on_signal_last {A : Type} (response : Response) (more : list string)
    (done : list A) (w : World) (continue : Z -> Outcome (list A) * World) :
  Header response !! "X-Next-Page" = Some (EmptyString :: more) ->
  on_signal response done w continue = (Returns done, w).
Proof. intros H. unfold on_signal, map_index. rewrite H. reflexivity. Qed.

Lemma on_signal_next {A : Type} (response : Response) (signal : string) (more : list string)
    (n : Z) (done : list A) (w : World) (continue : Z -> Outcome (list A) * World) :
  Header response !! "X-Next-Page" = Some (signal :: more) ->
  Atoi signal = inl n ->
  on_signal response done w continue = continue n.
Proof.
  intros H Hn. unfold on_signal, map_index. rewrite H. simpl.
  destruct (decide (signal = EmptyString)) as [->|_]; [discriminate|].
  by rewrite Hn.
Qed.

Lemma on_signal_malformed {A : Type} (response : Response) (signal : string)
    (more : list string) (e : error) (done : list A) (w : World)
    (continue : Z -> Outcome (list A) * World) :
  Header response !! "X-Next-Page" = Some (signal :: more) ->
  signal <> EmptyString ->
  Atoi signal = inr e ->
  on_signal response done w continue = log_Fatalf e w.
Proof.
  intros H Hne He. unfold on_signal, map_index. rewrite H. simpl.
  destruct (decide (signal = EmptyString)) as [->|_]; [done|].
  by rewrite He.
Qed.

Lemma on_signal_absent {A : Type} (response : Response) (done : list A) (w : World)
    (continue : Z -> Outcome (list A) * World) :
  Header response !! "X-Next-Page" = None ->
  on_signal response done w continue
  = (Panics "runtime error: index out of range [0] with length 0", w).
Proof. intros H. unfold on_signal, map_index. rewrite H. reflexivity. Qed.

(** ** Pages chained by their signals *)

Lemma chain_signal_last (N : nat) (signal : string) :
  chain_signal N N signal -> signal = EmptyString.
Proof. unfold chain_signal. destruct (decide (N < N)%nat); [lia|done]. Qed.

Lemma chain_signal_inner (N k : nat) (signal : string) :
  (k < N)%nat -> chain_signal N k signal -> Atoi signal = inl (Z.of_nat k + 1).
Proof. unfold chain_signal. intros Hk. destruct (decide (k < N)%nat); [done|lia]. Qed.

(** The decimal numeral of [k + 1] is such a signal, as long as it fits [int]. *)
Lemma chain_signal_decimal (N k : nat) :
  (k < N)%nat -> Z.of_nat k + 1 <= maxInt64 ->
  chain_signal N k (pretty (Z.of_nat k + 1)).
Proof.
  intros Hk Hmax. unfold chain_signal. rewrite decide_True by done.
  apply Atoi_pretty. unfold minInt64. lia.
Qed.

(** The merge-request loop on mocked pages, started anywhere in the chain:
    [rest] are the pages from page [j + 1] on. *)
Lemma GetMergeRequests_loop_pages (p : Project) (g t : string) (N : nat) :
  forall (rest : list (list MergeRequest)) (j fuel : nat) (acc : list MergeRequest) (w : World),
    rest <> [] ->
    N = (j + length rest)%nat ->
    (length rest <= fuel)%nat ->
    (forall (k : nat) (items : list MergeRequest),
        rest !! k = Some items ->
        exists signal,
          serves_merge_requests server decode_merge_requests
            (mergesUrl g (Id p) t (Z.of_nat (j + k) + 1)) items signal
          /\ chain_signal N (S (j + k)) signal) ->
    MRloop fuel p g t acc (Z.of_nat j + 1) w
    = (Returns (acc ++ concat rest),
       after_requests
         (map (fun k => mergesUrl g (Id p) t (Z.of_nat k)) (seq (S j) (length rest))) w).
Proof.
  induction rest as [|items rest IH]; intros j fuel acc w Hne HN Hfuel Hpages; [done|].
  destruct fuel as [|fuel]; [cbn in Hfuel; lia|].
  destruct (Hpages 0%nat items eq_refl) as (signal & Hserve & Hchain).
  destruct (Hserve (requests w)) as (response & Hget & Hbody & more & Hheader).
  rewrite Nat.add_0_r in Hget, Hchain.
  replace (Z.of_nat j + 1) with (Z.of_nat (S j)) in Hget |- * by lia.
  cbn [length seq map concat]. rewrite after_requests_cons.
  rewrite GetMergeRequests_loop_unfold. cbv zeta. rewrite Hget, Hbody.
  destruct rest as [|items' rest].
  - cbn in HN. replace N with (S j) in Hchain by lia.
    apply chain_signal_last in Hchain. subst signal.
    rewrite (on_signal_last _ more) by done.
    cbn. rewrite after_requests_nil, !app_nil_r. reflexivity.
  - apply chain_signal_inner in Hchain; [|cbn in HN; lia].
    rewrite (on_signal_next _ signal more (Z.of_nat (S j) + 1)) by done.
    rewrite (IH (S j) fuel).
    + by rewrite app_assoc.
    + done.
    + cbn in HN |- *. lia.
    + cbn in Hfuel |- *. lia.
    + intros k its Hk. destruct (Hpages (S k) its Hk) as (sg & Hs & Hc).
      exists sg. replace (S j + k)%nat with (j + S k)%nat by lia. done.
Qed.

(** The merge-request fetcher on mocked pages: with fuel for every page it
    requests the pages 1 to N in order and returns their items in order. *)
Lemma GetMergeRequests_pages (p : Project) (g t : string)
    (pages : list (list MergeRequest)) (fuel : nat) (w : World) :
  merge_pages_mocked server decode_merge_requests g t (Id p) pages ->
  (length pages <= fuel)%nat ->
  GetMRs fuel p g t w
  = (Returns (concat pages),
     after_requests (merge_page_urls g t (Id p) (length pages)) w).
Proof.
  intros [Hne Hpages] Hfuel. unfold GetMergeRequests.
  change 1 with (Z.of_nat 0 + 1).
  rewrite (GetMergeRequests_loop_pages p g t (length pages) pages 0 fuel [] w); done.
Qed.

(** The loop over the projects of a page, when every project's merge
    requests are mocked: [done] are the slots already visited. *)
Lemma attach_loop_mocked (fuelMR : nat) (g t : string)
    (mr_pages : Z -> list (list MergeRequest)) :
  forall (rest done : list Project) (w : World),
    Forall (fun p => merge_pages_mocked server decode_merge_requests g t (Id p)
                       (mr_pages (Id p))
                     /\ (length (mr_pages (Id p)) <= fuelMR)%nat) rest ->
    attach fuelMR g t (seq (length done) (length rest)) (done ++ rest) w
    = (Returns (done ++ map (enriched mr_pages) rest),
       after_requests
         (flat_map (fun p => merge_page_urls g t (Id p) (length (mr_pages (Id p)))) rest) w).
Proof.
  induction rest as [|p rest IH]; intros done w Hrest.
  - cbn. by rewrite after_requests_nil.
  - apply Forall_cons in Hrest as [[Hmock Hfuel] Hrest].
    cbn [length seq]. rewrite attach_loop_unfold.
    rewrite list_lookup_middle by reflexivity.
    rewrite (GetMergeRequests_pages p g t (mr_pages (Id p))) by done.
    rewrite insert_app_r_alt by lia. rewrite Nat.sub_diag. cbn [insert list_insert].
    fold (enriched mr_pages p).
    replace (done ++ enriched mr_pages p :: rest)
      with ((done ++ [enriched mr_pages p]) ++ rest) by (by rewrite <- app_assoc).
    replace (S (length done)) with (length (done ++ [enriched mr_pages p]))
      by (rewrite length_app; cbn; lia).
    rewrite IH by done.
    cbn [map flat_map]. rewrite after_requests_app, <- app_assoc. reflexivity.
Qed.

(** The project loop on mocked pages, started anywhere in the chain. *)
Lemma GetRepositories_loop_pages (fuelMR : nat) (g t : string) (N : nat)
    (mr_pages : Z -> list (list MergeRequest)) :
  forall (rest : list (list Project)) (j fuel : nat) (acc : list Project) (w : World),
    rest <> [] ->
    N = (j + length rest)%nat ->
    (length rest <= fuel)%nat ->
    (forall (k : nat) (items : list Project),
        rest !! k = Some items ->
        exists signal,
          serves_projects server decode_projects
            (projectsUrl g t (Z.of_nat (j + k) + 1)) items signal
          /\ chain_signal N (S (j + k)) signal) ->
    Forall (Forall (fun p => merge_pages_mocked server decode_merge_requests g t (Id p)
                               (mr_pages (Id p))
                             /\ (length (mr_pages (Id p)) <= fuelMR)%nat)) rest ->
    Rloop fuelMR fuel g t acc (Z.of_nat j + 1) w
    = (Returns (acc ++ map (enriched mr_pages) (concat rest)),
       after_requests (requests_from g t mr_pages (S j) rest) w).
Proof.
  induction rest as [|items rest IH]; intros j fuel acc w Hne HN Hfuel Hpages Hmrs; [done|].
  destruct fuel as [|fuel]; [cbn in Hfuel; lia|].
  destruct (Hpages 0%nat items eq_refl) as (signal & Hserve & Hchain).
  destruct (Hserve (requests w)) as (response & Hget & Hbody & more & Hheader).
  apply Forall_cons in Hmrs as [Hitems Hmrs].
  rewrite Nat.add_0_r in Hget, Hchain.
  replace (Z.of_nat j + 1) with (Z.of_nat (S j)) in Hget |- * by lia.
  cbn [requests_from concat]. unfold page_requests.
  rewrite <- app_comm_cons, after_requests_cons, after_requests_app.
  rewrite GetRepositories_loop_unfold. cbv zeta. rewrite Hget, Hbody.
  rewrite (attach_loop_mocked fuelMR g t mr_pages items [] _ Hitems).
  cbn [app]. rewrite map_app, app_assoc.
  destruct rest as [|items' rest].
  - cbn in HN. replace N with (S j) in Hchain by lia.
    apply chain_signal_last in Hchain. subst signal.
    rewrite (on_signal_last _ more) by done.
    cbn. rewrite after_requests_nil, !app_nil_r. reflexivity.
  - apply chain_signal_inner in Hchain; [|cbn in HN; lia].
    rewrite (on_signal_next _ signal more (Z.of_nat (S j) + 1)) by done.
    rewrite (IH (S j) fuel).
    + reflexivity.
    + done.
    + cbn in HN |- *. lia.
    + cbn in Hfuel |- *. lia.
    + intros k its Hk. destruct (Hpages (S k) its Hk) as (sg & Hs & Hc).
      exists sg. replace (S j + k)%nat with (j + S k)%nat by lia. done.
    + done.
Qed.

(** The project fetcher on mocked pages. *)
Lemma GetRepositories_pages (fuelMR fuel : nat) (g t : string)
    (pages : list (list Project)) (mr_pages : Z -> list (list MergeRequest)) (w : World) :
  project_pages_mocked server decode_projects g t pages ->
  (forall p, p ∈ concat pages ->
             merge_pages_mocked server decode_merge_requests g t (Id p) (mr_pages (Id p))) ->
  (length pages <= fuel)%nat ->
  (forall p, p ∈ concat pages -> (length (mr_pages (Id p)) <= fuelMR)%nat) ->
  GetRepos fuelMR fuel g t w
  = (Returns (map (enriched mr_pages) (concat pages)),
     after_requests (requests_from g t mr_pages 1 pages) w).
Proof.
  intros [Hne Hpages] Hmrs Hfuel HfuelMR. unfold GetRepositories.
  change 1 with (Z.of_nat 0 + 1).
  rewrite (GetRepositories_loop_pages fuelMR g t (length pages) mr_pages pages 0 fuel [] w);
    try done.
  apply Forall_forall. intros items Hitems. apply Forall_forall. intros p Hp.
  assert (p ∈ concat pages) as Hin.
  { apply list_elem_of_In, in_concat. exists items. by rewrite <- !list_elem_of_In. }
  split; [by apply Hmrs | by apply HfuelMR].
Qed.

(** ** The shape of the URLs *)

Lemma projectsUrl_shape (g t : string) (page : Z) :
  projectsUrl g t page
  = g +:+ "/api/v4/projects?private_token=" +:+ t
    +:+ "&per_page=100&statistics=1&page=" +:+ pretty page.
Proof.
  unfold projectsUrl, projects_format.
  rewrite <- (string_app_nil_r (pretty page)). reflexivity.
Qed.

Lemma mergesUrl_shape (g : string) (id : Z) (t : string) (page : Z) :
  mergesUrl g id t page
  = g +:+ "/api/v4/projects/" +:+ pretty id +:+ "/merge_requests?private_token=" +:+ t
    +:+ "&per_page=100&statistics=1&page=" +:+ pretty page.
Proof.
  unfold mergesUrl, merges_format.
  rewrite <- (string_app_nil_r (pretty page)). reflexivity.
Qed.

Lemma string_prefix_app (a b c : string) : String.prefix (a +:+ b) (a +:+ c) = String.prefix b c.
Proof.
  induction a as [|x a IH]; [reflexivity|].
  rewrite !string_app_cons. cbn [String.prefix].
  destruct (ascii_dec x x); [exact IH|done].
Qed.

Lemma is_projects_url_projects (g t : string) (page : Z) :
  is_projects_url g (projectsUrl g t page) = true.
Proof. unfold is_projects_url. rewrite projectsUrl_shape, string_prefix_app. reflexivity. Qed.

Lemma is_projects_url_merges (g : string) (id : Z) (t : string) (page : Z) :
  is_projects_url g (mergesUrl g id t page) = false.
Proof. unfold is_projects_url. rewrite mergesUrl_shape, string_prefix_app. reflexivity. Qed.

Lemma filter_merge_page_urls (g t : string) (id : Z) (n : nat) :
  filter (fun url => is_projects_url g url = true) (merge_page_urls g t id n) = [].
Proof.
  unfold merge_page_urls. induction (seq 1 n) as [|k ks IH]; [reflexivity|].
  cbn [map]. rewrite filter_cons_False; [exact IH|].
  rewrite is_projects_url_merges. discriminate.
Qed.

Lemma filter_requests_from (g t : string) (mr_pages : Z -> list (list MergeRequest))
    (pages : list (list Project)) (k : nat) :
  filter (fun url => is_projects_url g url = true) (requests_from g t mr_pages k pages)
  = map (fun i => projectsUrl g t (Z.of_nat i)) (seq k (length pages)).
Proof.
  revert k. induction pages as [|items pages IH]; intros k; [reflexivity|].
  cbn [requests_from length seq map]. unfold page_requests.
  rewrite <- app_comm_cons, filter_cons_True by apply is_projects_url_projects.
  rewrite filter_app, IH. f_equal.
  replace (filter _ (flat_map _ items)) with (@nil string); [reflexivity|].
  induction items as [|p items IHi]; [reflexivity|].
  cbn [flat_map]. by rewrite filter_app, filter_merge_page_urls, <- IHi.
Qed.

(** C1. When the project list is mocked as N pages whose continuation
    signals are 2, 3, ..., N and, on page N, the empty string (and the merge
    requests of every project on them are mocked the same way), the project
    fetcher, given fuel for these pages, returns the items of pages 1 to N
    in page order, each with its merge requests attached.  Its requests
    are, for each page in turn, that page and then the merge-request pages
    of the page's projects; among them exactly N are project-page requests,
    those of the pages 1 to N in order. *)
Theorem project_fetcher_visits_every_page (fuelMR fuel : nat) (g t : string)
    (pages : list (list Project)) (mr_pages : Z -> list (list MergeRequest)) (w : World) :
  project_pages_mocked server decode_projects g t pages ->
  (forall p, p ∈ concat pages ->
             merge_pages_mocked server decode_merge_requests g t (Id p) (mr_pages (Id p))) ->
  (length pages <= fuel)%nat ->
  (forall p, p ∈ concat pages -> (length (mr_pages (Id p)) <= fuelMR)%nat) ->
  exists (result : list Project) (w' : World) (new : list string),
    GetRepos fuelMR fuel g t w = (Returns result, w')
    /\ result = concat (map (map (enriched mr_pages)) pages)
    /\ requests w' = requests w ++ new
    /\ new = requests_from g t mr_pages 1 pages
    /\ filter (fun url => is_projects_url g url = true) new
       = map (fun k => projectsUrl g t (Z.of_nat k)) (seq 1 (length pages))
    /\ length (filter (fun url => is_projects_url g url = true) new) = length pages.
Proof.
  intros Hpages Hmrs Hfuel HfuelMR.
  exists (concat (map (map (enriched mr_pages)) pages)),
         (after_requests (requests_from g t mr_pages 1 pages) w),
         (requests_from g t mr_pages 1 pages).
  rewrite filter_requests_from, length_map, length_seq.
  repeat split.
  rewrite (GetRepositories_pages fuelMR fuel g t pages mr_pages w) by done.
  by rewrite concat_map.
Qed.

(** C4. One project page with the two projects [p1] and [p2], where the
    merge-request endpoint answers with three items for the first and none
    for the second: the fetcher returns exactly two projects, the first with
    these three merge requests in order and the second with none.  The
    merge requests are fetched right after the page and before anything
    else: when the page announces a next page, the loop goes on to it with
    both enriched projects already accumulated. *)
Theorem merge_requests_nested_per_project (fuelMR fuel : nat) (g t : string)
    (p1 p2 : Project) (a b c : MergeRequest) (signal : string)
    (acc : list Project) (page : Z) (w : World) :
  serves_projects server decode_projects (projectsUrl g t page) [p1; p2] signal ->
  serves_merge_requests server decode_merge_requests
    (mergesUrl g (Id p1) t 1) [a; b; c] EmptyString ->
  serves_merge_requests server decode_merge_requests
    (mergesUrl g (Id p2) t 1) [] EmptyString ->
  let done := [SetMergeRequests p1 [a; b; c]; SetMergeRequests p2 []] in
  let w' := after_requests
              [projectsUrl g t page; mergesUrl g (Id p1) t 1; mergesUrl g (Id p2) t 1] w in
  (signal = EmptyString ->
   Rloop (S fuelMR) (S fuel) g t acc page w = (Returns (acc ++ done), w'))
  /\ (signal = EmptyString -> page = 1 ->
      GetRepos (S fuelMR) (S fuel) g t w = (Returns done, w'))
  /\ (forall n, Atoi signal = inl n ->
      Rloop (S fuelMR) (S fuel) g t acc page w
      = Rloop (S fuelMR) fuel g t (acc ++ done) n w')
  /\ length done = 2%nat
  /\ (length <$> (MergeRequests <$> done)) = [3%nat; 0%nat].
Proof.
  intros Hpage H1 H2 done w'.
  assert (forall acc,
             Rloop (S fuelMR) (S fuel) g t acc page w
             = on_signal (A := Project)
                 {| Header := {[ "X-Next-Page" := [signal] ]}; Body := EmptyString |}
                 (acc ++ done) w'
                 (fun n => Rloop (S fuelMR) fuel g t (acc ++ done) n w')) as Hstep.
  { intros acc0.
    destruct (Hpage (requests w)) as (response & Hget & Hbody & more & Hheader).
    rewrite GetRepositories_loop_unfold. cbv zeta. rewrite Hget, Hbody.
    set (mr_pages := fun id : Z => if decide (id = Id p1) then [[a; b; c]] else [[]]).
    assert (Forall (fun p => merge_pages_mocked server decode_merge_requests g t (Id p)
                               (mr_pages (Id p))
                             /\ (length (mr_pages (Id p)) <= S fuelMR)%nat) [p1; p2]) as Hmock.
    { assert (forall id items, serves_merge_requests server decode_merge_requests
                                 (mergesUrl g id t 1) items EmptyString ->
                               merge_pages_mocked server decode_merge_requests g t id [items])
        as Hone.
      { intros id items Hs. split; [done|].
        intros [|k] its Hk; [|done]. inversion Hk; subst. exists EmptyString. done. }
      apply Forall_cons; split; [split|apply Forall_cons; split; [split|constructor]];
        unfold mr_pages.
      - rewrite decide_True by done. by apply Hone.
      - rewrite decide_True by done. cbn. lia.
      - destruct (decide (Id p2 = Id p1)) as [E|_]; [|by apply Hone].
        rewrite E in H2.
        destruct (H1 []) as (r1 & G1 & B1 & _). destruct (H2 []) as (r2 & G2 & B2 & _).
        congruence.
      - destruct (decide (Id p2 = Id p1)); cbn; lia. }
    rewrite (attach_loop_mocked (S fuelMR) g t mr_pages [p1; p2] [] _ Hmock).
    assert (map (enriched mr_pages) [p1; p2] = done) as ->.
    { subst done. unfold enriched, mr_pages. cbn [map]. rewrite decide_True by done.
      destruct (decide (Id p2 = Id p1)) as [E|_]; [|reflexivity].
      rewrite E in H2.
      destruct (H1 []) as (r1 & G1 & B1 & _). destruct (H2 []) as (r2 & G2 & B2 & _).
      congruence. }
    assert (after_requests
              (flat_map (fun p => merge_page_urls g t (Id p) (length (mr_pages (Id p))))
                 [p1; p2]) (after_requests [projectsUrl g t page] w) = w') as ->.
    { subst w'.
      rewrite (after_requests_cons (projectsUrl g t page)
                 [mergesUrl g (Id p1) t 1; mergesUrl g (Id p2) t 1] w).
      f_equal. unfold mr_pages. cbn [flat_map]. rewrite decide_True by done.
      destruct (decide (Id p2 = Id p1)); reflexivity. }
    cbn [app]. unfold on_signal, map_index. rewrite Hheader.
    cbn [Header]. rewrite lookup_singleton_eq. reflexivity. }
  repeat split.
  - intros ->. rewrite Hstep. reflexivity.
  - intros -> ->. unfold GetRepositories. rewrite Hstep. reflexivity.
  - intros n Hn. rewrite Hstep.
    by rewrite (on_signal_next _ signal [] n) by (apply lookup_singleton_eq || done).
Qed.

(** ** What a run does to the world *)

Lemma accepted_run_app (g : string) (h a b : list string) :
  accepted_run server decode_projects decode_merge_requests g h (a ++ b)
  <-> accepted_run server decode_projects decode_merge_requests g h a
      /\ accepted_run server decode_projects decode_merge_requests g (h ++ a) b.
Proof.
  revert h. induction a as [|u a IH]; intros h.
  - cbn. rewrite app_nil_r. tauto.
  - cbn [app accepted_run]. rewrite IH, <- app_assoc. cbn [app]. tauto.
Qed.

Ltac world_simpl :=
  unfold log_Fatalf, after_requests, announced, last_words;
  cbn [fst snd requests logged map app]; rewrite <- ?app_assoc; cbn [app].

(** The merge-request loop only adds to the world: requests to the
    merge-request endpoint of its project, their announcements in the log,
    and the line of [log.Fatalf] when it dies.  It returns only when every
    answer was acceptable. *)
Lemma GetMergeRequests_loop_effects (g t : string) (p : Project) :
  forall (fuel : nat) (acc : list MergeRequest) (page : Z) (w : World),
    exists new : list string,
      requests (MRloop fuel p g t acc page w).2 = requests w ++ new
      /\ logged (MRloop fuel p g t acc page w).2
         = logged w ++ announced new ++ last_words (MRloop fuel p g t acc page w).1
      /\ Forall (fun url => exists k, url = mergesUrl g (Id p) t k) new
      /\ (fuel <> 0%nat -> exists rest, new = mergesUrl g (Id p) t page :: rest)
      /\ (forall result, (MRloop fuel p g t acc page w).1 = Returns result ->
            accepted_run server decode_projects decode_merge_requests g (requests w) new).
Proof.
  induction fuel as [|fuel IH]; intros acc page w.
  { exists []. cbn. rewrite !app_nil_r. by split_and!. }
  rewrite GetMergeRequests_loop_unfold. cbv zeta.
  set (url := mergesUrl g (Id p) t page).
  assert (Forall (fun u => exists k, u = mergesUrl g (Id p) t k) [url]) as Hurl
    by (repeat constructor; by exists page).
  destruct (server (requests w) url) as [response|e] eqn:Hget.
  2:{ exists [url]. world_simpl.
      split_and!; [done | done | done | intros _; by eexists | intros ? [=]]. }
  destruct (decode_merge_requests (Body response)) as [items|e] eqn:Hbody.
  2:{ exists [url]. world_simpl.
      split_and!; [done | done | done | intros _; by eexists | intros ? [=]]. }
  unfold on_signal.
  destruct (map_index (Header response) "X-Next-Page" !! 0%nat) as [signal|] eqn:Hsig.
  2:{ exists [url]. world_simpl. rewrite ?app_nil_r.
      split_and!; [done | done | done | intros _; by eexists | intros ? [=]]. }
  assert (exists more, Header response !! "X-Next-Page" = Some (signal :: more)) as Hheader.
  { unfold map_index in Hsig.
    destruct (Header response !! "X-Next-Page") as [[|s more]|]; try done.
    exists more. cbn in Hsig. congruence. }
  assert (signal = EmptyString \/ (exists n, Atoi signal = inl n) ->
          acceptable decode_projects decode_merge_requests g url
            (server (requests w) url)) as Hacc.
  { intros Hn. exists response. split; [done|]. split.
    - unfold url. rewrite is_projects_url_merges. eauto.
    - destruct Hheader as [more Hh]. by exists signal, more. }
  destruct (decide (signal = EmptyString)) as [Hempty|Hnonempty].
  { exists [url]. world_simpl. rewrite ?app_nil_r.
    split_and!; [done | done | done | intros _; by eexists |].
    intros _ _. split; [|done]. apply Hacc. by left. }
  destruct (Atoi signal) as [n|e] eqn:Hatoi.
  2:{ exists [url]. world_simpl.
      split_and!; [done | done | done | intros _; by eexists | intros ? [=]]. }
  destruct (IH (acc ++ items) n (after_requests [url] w))
    as (new & Hreq & Hlog & Hall & _ & Hret).
  exists (url :: new). rewrite Hreq, Hlog. world_simpl.
  split_and!; [done | done | | intros _; by eexists |].
  - constructor; [by exists page | done].
  - intros result Hres. split; [apply Hacc; eauto | by eapply Hret].
Qed.

(** The merge-request fetcher reads nothing of its project but the id. *)
Lemma GetMergeRequests_loop_by_id (g t : string) (p p' : Project) :
  Id p = Id p' ->
  forall (fuel : nat) (acc : list MergeRequest) (page : Z) (w : World),
    MRloop fuel p g t acc page w = MRloop fuel p' g t acc page w.
Proof.
  intros Hid. induction fuel as [|fuel IH]; intros acc page w; [reflexivity|].
  rewrite !GetMergeRequests_loop_unfold. cbv zeta. rewrite Hid.
  destruct (server _ _); [|reflexivity].
  destruct (decode_merge_requests _); [|reflexivity].
  unfold on_signal. destruct (_ !! 0%nat); [|reflexivity].
  destruct (decide _); [reflexivity|]. destruct (Atoi _); [|reflexivity].
  apply IH.
Qed.


Lemma GetMergeRequests_effects (fuel : nat) (g t : string) (p : Project) (w : World) :
  exists new : list string,
    requests (GetMRs fuel p g t w).2 = requests w ++ new
    /\ logged (GetMRs fuel p g t w).2
       = logged w ++ announced new ++ last_words (GetMRs fuel p g t w).1
    /\ Forall (fun url => exists k, url = mergesUrl g (Id p) t k) new
    /\ (forall result, (GetMRs fuel p g t w).1 = Returns result ->
          accepted_run server decode_projects decode_merge_requests g (requests w) new).
Proof.
  destruct (GetMergeRequests_loop_effects g t p fuel [] 1 w) as (new & H1 & H2 & H3 & _ & H5).
  by exists new.
Qed.

(** The loop over a page's projects only adds requests, and returns only
    when every answer was acceptable. *)
Lemma attach_loop_effects (fuelMR : nat) (g t : string) :
  forall (indices : list nat) (items : list Project) (w : World),
    exists new : list string,
      requests (attach fuelMR g t indices items w).2 = requests w ++ new
      /\ (forall result, (attach fuelMR g t indices items w).1 = Returns result ->
            accepted_run server decode_projects decode_merge_requests g (requests w) new).
Proof.
  induction indices as [|i indices IH]; intros items w.
  { exists []. cbn. by rewrite app_nil_r. }
  rewrite attach_loop_unfold.
  destruct (items !! i) as [p|]; [|exists []; cbn; by rewrite app_nil_r].
  destruct (GetMergeRequests_effects fuelMR g t p w) as (new1 & Hreq1 & _ & _ & Hacc1).
  destruct (GetMRs fuelMR p g t w) as [[mrs|e|msg|] w1]; cbn [fst snd] in *;
    try (exists new1; by split).
  destruct (IH (<[i := SetMergeRequests p mrs]> items) w1) as (new2 & Hreq2 & Hacc2).
  exists (new1 ++ new2). split.
  - by rewrite Hreq2, Hreq1, app_assoc.
  - intros result Hres. apply accepted_run_app. split; [by eapply Hacc1|].
    rewrite <- Hreq1. by eapply Hacc2.
Qed.

(** The project loop only adds requests, the first of which is the page it
    starts at, and returns only when every answer was acceptable. *)
Lemma GetRepositories_loop_effects (fuelMR : nat) (g t : string) :
  forall (fuel : nat) (acc : list Project) (page : Z) (w : World),
    exists new : list string,
      requests (Rloop fuelMR fuel g t acc page w).2 = requests w ++ new
      /\ (fuel <> 0%nat -> exists rest, new = projectsUrl g t page :: rest)
      /\ (forall result, (Rloop fuelMR fuel g t acc page w).1 = Returns result ->
            accepted_run server decode_projects decode_merge_requests g (requests w) new).
Proof.
  induction fuel as [|fuel IH]; intros acc page w.
  { exists []. cbn. rewrite app_nil_r. by split_and!. }
  rewrite GetRepositories_loop_unfold. cbv zeta.
  set (url := projectsUrl g t page).
  destruct (server (requests w) url) as [response|e] eqn:Hget.
  2:{ exists [url]. world_simpl.
      split_and!; [done | intros _; by eexists | intros ? [=]]. }
  destruct (decode_projects (Body response)) as [items|e] eqn:Hbody.
  2:{ exists [url]. world_simpl.
      split_and!; [done | intros _; by eexists | intros ? [=]]. }
  destruct (attach_loop_effects fuelMR g t (seq 0 (length items)) items
              (after_requests [url] w)) as (new1 & Hreq1 & Hacc1).
  destruct (attach fuelMR g t (seq 0 (length items)) items (after_requests [url] w))
    as [[items'|e|msg|] w2]; cbn [fst snd] in *; rewrite requests_after in Hreq1;
    try (exists (url :: new1); rewrite Hreq1, <- app_assoc;
         split_and!; [done | intros _; by eexists | intros ? [=]]).
  specialize (Hacc1 _ eq_refl).
  unfold on_signal.
  destruct (map_index (Header response) "X-Next-Page" !! 0%nat) as [signal|] eqn:Hsig.
  2:{ exists (url :: new1). cbn [fst snd]. rewrite Hreq1, <- app_assoc.
      split_and!; [done | intros _; by eexists | intros ? [=]]. }
  assert (exists more, Header response !! "X-Next-Page" = Some (signal :: more)) as Hheader.
  { unfold map_index in Hsig.
    destruct (Header response !! "X-Next-Page") as [[|s more]|]; try done.
    exists more. cbn in Hsig. congruence. }
  assert (signal = EmptyString \/ (exists n, Atoi signal = inl n) ->
          acceptable decode_projects decode_merge_requests g url
            (server (requests w) url)) as Hacc.
  { intros Hn. exists response. split; [done|]. split.
    - unfold url. rewrite is_projects_url_projects. eauto.
    - destruct Hheader as [more Hh]. by exists signal, more. }
  destruct (decide (signal = EmptyString)) as [Hempty|Hnonempty].
  { exists (url :: new1). cbn [fst snd]. rewrite Hreq1, <- app_assoc.
    split_and!; [done | intros _; by eexists |].
    intros _ _. split; [apply Hacc; by left | done]. }
  destruct (Atoi signal) as [n|e] eqn:Hatoi.
  2:{ exists (url :: new1). world_simpl. rewrite Hreq1, <- app_assoc.
      split_and!; [done | intros _; by eexists | intros ? [=]]. }
  destruct (IH (acc ++ items') n w2) as (new2 & Hreq2 & _ & Hacc2).
  exists (url :: new1 ++ new2). rewrite Hreq2, Hreq1, <- !app_assoc.
  split_and!; [done | intros _; by eexists |].
  intros result Hres. split; [apply Hacc; eauto|].
  apply accepted_run_app. split; [done|].
  rewrite <- Hreq1. by eapply Hacc2.
Qed.

Lemma Atoi_error (s : string) (e : error) :
  Atoi s = inr e -> exists kind, e = NumError "Atoi" s kind.
Proof.
  unfold Atoi. destruct s as [|c rest]; [intros [= <-]; eauto|].
  destruct (if (Ascii.eqb c "-" || Ascii.eqb c "+")%bool then rest else String c rest);
    [intros [= <-]; eauto|].
  destruct (parse_digits _ _); [|intros [= <-]; eauto].
  destruct (Ascii.eqb c "-"); destruct (_ <? _); intros [=]; subst; eauto.
Qed.

(** ** The continuation signal *)

(** C2. What the loops do when the signal is empty and when it is absent.
    On a response whose first [X-Next-Page] value is the empty string, each
    loop returns what it has accumulated, this page included.  On a response
    with no [X-Next-Page] header the read of the signal faults: indexing the
    missing header panics, and nothing is returned. *)
Theorem absent_signal_panics :
  (forall (fuel : nat) (p : Project) (g t : string) (acc : list MergeRequest)
          (page : Z) (w : World) (response : Response) (items : list MergeRequest),
      server (requests w) (mergesUrl g (Id p) t page) = inl response ->
      decode_merge_requests (Body response) = inl items ->
      (forall more, Header response !! "X-Next-Page" = Some (EmptyString :: more) ->
         MRloop (S fuel) p g t acc page w
         = (Returns (acc ++ items), after_requests [mergesUrl g (Id p) t page] w))
      /\ (Header response !! "X-Next-Page" = None ->
          MRloop (S fuel) p g t acc page w
          = (Panics "runtime error: index out of range [0] with length 0",
             after_requests [mergesUrl g (Id p) t page] w)))
  /\ (forall (fuelMR fuel : nat) (g t : string) (acc : list Project) (page : Z)
             (w w2 : World) (response : Response) (items items' : list Project),
        server (requests w) (projectsUrl g t page) = inl response ->
        decode_projects (Body response) = inl items ->
        attach fuelMR g t (seq 0 (length items)) items
          (after_requests [projectsUrl g t page] w) = (Returns items', w2) ->
        (forall more, Header response !! "X-Next-Page" = Some (EmptyString :: more) ->
           Rloop fuelMR (S fuel) g t acc page w = (Returns (acc ++ items'), w2))
        /\ (Header response !! "X-Next-Page" = None ->
            Rloop fuelMR (S fuel) g t acc page w
            = (Panics "runtime error: index out of range [0] with length 0", w2))).
Proof.
  split.
  - intros fuel p g t acc page w response items Hget Hbody.
    rewrite GetMergeRequests_loop_unfold. cbv zeta. rewrite Hget, Hbody.
    split; [intros more H; by apply (on_signal_last _ more) | apply on_signal_absent].
  - intros fuelMR fuel g t acc page w w2 response items items' Hget Hbody Hattach.
    rewrite GetRepositories_loop_unfold. cbv zeta. rewrite Hget, Hbody, Hattach.
    split; [intros more H; by apply (on_signal_last _ more) | apply on_signal_absent].
Qed.

(** C3. On a response whose signal is there, is not empty and is not an
    integer for [Atoi], each loop ends in [log.Fatalf] with the error of
    [Atoi], a [NumError] naming the signal: the accumulated items are not
    returned.  The signal [abc] is such a value. *)
Theorem malformed_signal_is_fatal :
  (forall (fuel : nat) (p : Project) (g t : string) (acc : list MergeRequest)
          (page : Z) (w : World) (response : Response) (items : list MergeRequest)
          (signal : string) (more : list string) (e : error),
      server (requests w) (mergesUrl g (Id p) t page) = inl response ->
      decode_merge_requests (Body response) = inl items ->
      Header response !! "X-Next-Page" = Some (signal :: more) ->
      signal <> EmptyString ->
      Atoi signal = inr e ->
      MRloop (S fuel) p g t acc page w
      = (Fatal e, {| requests := requests w ++ [mergesUrl g (Id p) t page];
                     logged := logged w ++ announced [mergesUrl g (Id p) t page]
                               ++ [FatalLine e] |})
      /\ (exists kind, e = NumError "Atoi" signal kind)
      /\ forall result, (MRloop (S fuel) p g t acc page w).1 <> Returns result)
  /\ (forall (fuelMR fuel : nat) (g t : string) (acc : list Project) (page : Z)
             (w w2 : World) (response : Response) (items items' : list Project)
             (signal : string) (more : list string) (e : error),
        server (requests w) (projectsUrl g t page) = inl response ->
        decode_projects (Body response) = inl items ->
        attach fuelMR g t (seq 0 (length items)) items
          (after_requests [projectsUrl g t page] w) = (Returns items', w2) ->
        Header response !! "X-Next-Page" = Some (signal :: more) ->
        signal <> EmptyString ->
        Atoi signal = inr e ->
        Rloop fuelMR (S fuel) g t acc page w
        = (Fatal e, {| requests := requests w2; logged := logged w2 ++ [FatalLine e] |})
        /\ (exists kind, e = NumError "Atoi" signal kind)
        /\ forall result, (Rloop fuelMR (S fuel) g t acc page w).1 <> Returns result)
  /\ Atoi "abc" = inr (NumError "Atoi" "abc" ErrSyntax).
Proof.
  split_and!; [| |reflexivity].
  - intros fuel p g t acc page w response items signal more e Hget Hbody Hh Hne He.
    rewrite GetMergeRequests_loop_unfold. cbv zeta. rewrite Hget, Hbody.
    rewrite (on_signal_malformed _ signal more e) by done.
    world_simpl. split_and!; [done | by apply Atoi_error | done].
  - intros fuelMR fuel g t acc page w w2 response items items' signal more e
      Hget Hbody Hattach Hh Hne He.
    rewrite GetRepositories_loop_unfold. cbv zeta. rewrite Hget, Hbody, Hattach.
    rewrite (on_signal_malformed _ signal more e) by done.
    world_simpl. split_and!; [done | by apply Atoi_error | done].
Qed.

(** C5, amended. On a response whose signal [Atoi] reads as the integer [n],
    of whatever sign, each loop goes on, and the next page it requests is
    page [n]: the loop checks that the signal is an integer and nothing
    more. *)
Theorem parsed_signal_selects_next_page :
  (forall (fuel : nat) (p : Project) (g t : string) (acc : list MergeRequest)
          (page : Z) (w : World) (response : Response) (items : list MergeRequest)
          (signal : string) (more : list string) (n : Z),
      server (requests w) (mergesUrl g (Id p) t page) = inl response ->
      decode_merge_requests (Body response) = inl items ->
      Header response !! "X-Next-Page" = Some (signal :: more) ->
      Atoi signal = inl n ->
      MRloop (S (S fuel)) p g t acc page w
      = MRloop (S fuel) p g t (acc ++ items) n
          (after_requests [mergesUrl g (Id p) t page] w)
      /\ exists later,
           requests (MRloop (S (S fuel)) p g t acc page w).2
           = requests w ++ mergesUrl g (Id p) t page :: mergesUrl g (Id p) t n :: later)
  /\ (forall (fuelMR fuel : nat) (g t : string) (acc : list Project) (page : Z)
             (w w2 : World) (response : Response) (items items' : list Project)
             (signal : string) (more : list string) (n : Z),
        server (requests w) (projectsUrl g t page) = inl response ->
        decode_projects (Body response) = inl items ->
        attach fuelMR g t (seq 0 (length items)) items
          (after_requests [projectsUrl g t page] w) = (Returns items', w2) ->
        Header response !! "X-Next-Page" = Some (signal :: more) ->
        Atoi signal = inl n ->
        Rloop fuelMR (S (S fuel)) g t acc page w
        = Rloop fuelMR (S fuel) g t (acc ++ items') n w2
        /\ exists later,
             requests (Rloop fuelMR (S (S fuel)) g t acc page w).2
             = requests w2 ++ projectsUrl g t n :: later).
Proof.
  split.
  - intros fuel p g t acc page w response items signal more n Hget Hbody Hh Hn.
    assert (MRloop (S (S fuel)) p g t acc page w
            = MRloop (S fuel) p g t (acc ++ items) n
                (after_requests [mergesUrl g (Id p) t page] w)) as Hstep.
    { rewrite GetMergeRequests_loop_unfold. cbv zeta. rewrite Hget, Hbody.
      by rewrite (on_signal_next _ signal more n). }
    split; [exact Hstep|]. rewrite Hstep.
    destruct (GetMergeRequests_loop_effects g t p (S fuel) (acc ++ items) n
                (after_requests [mergesUrl g (Id p) t page] w))
      as (new & Hreq & _ & _ & Hfirst & _).
    destruct Hfirst as [later ->]; [done|].
    exists later. rewrite Hreq. world_simpl. reflexivity.
  - intros fuelMR fuel g t acc page w w2 response items items' signal more n
      Hget Hbody Hattach Hh Hn.
    assert (Rloop fuelMR (S (S fuel)) g t acc page w
            = Rloop fuelMR (S fuel) g t (acc ++ items') n w2) as Hstep.
    { rewrite GetRepositories_loop_unfold. cbv zeta. rewrite Hget, Hbody, Hattach.
      by rewrite (on_signal_next _ signal more n). }
    split; [exact Hstep|]. rewrite Hstep.
    destruct (GetRepositories_loop_effects fuelMR g t (S fuel) (acc ++ items') n w2)
      as (new & Hreq & Hfirst & _).
    destruct Hfirst as [later ->]; [done|].
    exists later. exact Hreq.
Qed.

(** ** No partial collection *)

Lemma fully_fetched_widen (fuelMR : nat) (g t : string) (lo lo' hi hi' : list string)
    (p : Project) :
  lo' `prefix_of` lo -> hi `prefix_of` hi' ->
  fully_fetched server decode_merge_requests fuelMR g t lo hi p ->
  fully_fetched server decode_merge_requests fuelMR g t lo' hi' p.
Proof.
  intros Hlo Hhi (w1 & w2 & H1 & H2 & Hrun).
  exists w1, w2. split_and!; [by etrans | by etrans | done].
Qed.

Lemma attach_loop_complete (fuelMR : nat) (g t : string) :
  forall (rest done : list Project) (w w' : World) (items' : list Project),
    attach fuelMR g t (seq (length done) (length rest)) (done ++ rest) w
    = (Returns items', w') ->
    exists rest',
      items' = done ++ rest'
      /\ length rest' = length rest
      /\ Forall (fully_fetched server decode_merge_requests fuelMR g t
                   (requests w) (requests w')) rest'.
Proof.
  induction rest as [|p rest IH]; intros done w w' items' Hrun.
  { cbn in Hrun. injection Hrun as <- <-. exists []. by rewrite app_nil_r. }
  cbn [length seq] in Hrun. rewrite attach_loop_unfold in Hrun.
  rewrite list_lookup_middle in Hrun by reflexivity.
  destruct (GetMergeRequests_effects fuelMR g t p w) as (new1 & Hreq1 & _).
  destruct (GetMRs fuelMR p g t w) as [[mrs|e|msg|] w1] eqn:Hmr; try discriminate.
  cbn [snd] in Hreq1.
  rewrite insert_app_r_alt in Hrun by lia. rewrite Nat.sub_diag in Hrun.
  cbn [insert list_insert] in Hrun.
  replace (done ++ SetMergeRequests p mrs :: rest)
    with ((done ++ [SetMergeRequests p mrs]) ++ rest) in Hrun by (by rewrite <- app_assoc).
  replace (S (length done)) with (length (done ++ [SetMergeRequests p mrs])) in Hrun
    by (rewrite length_app; cbn; lia).
  destruct (attach_loop_effects fuelMR g t
              (seq (length (done ++ [SetMergeRequests p mrs])) (length rest))
              ((done ++ [SetMergeRequests p mrs]) ++ rest) w1) as (new2 & Hreq2 & _).
  rewrite Hrun in Hreq2. cbn [snd] in Hreq2.
  apply IH in Hrun as (rest' & -> & Hlen & Hall).
  exists (SetMergeRequests p mrs :: rest'). split_and!.
  - by rewrite <- app_assoc.
  - cbn. by rewrite Hlen.
  - constructor.
    + exists w, w1. split_and!; [done | rewrite Hreq2; by apply prefix_app_r |].
      unfold GetMergeRequests in *.
      rewrite <- (GetMergeRequests_loop_by_id g t p (SetMergeRequests p mrs) eq_refl).
      exact Hmr.
    + eapply Forall_impl; [exact Hall|]. intros q.
      apply fully_fetched_widen; [|done]. rewrite Hreq1. by apply prefix_app_r.
Qed.

Lemma GetRepositories_loop_complete (fuelMR : nat) (g t : string) :
  forall (fuel : nat) (acc : list Project) (page : Z) (w w' : World) (ps : list Project),
    Rloop fuelMR fuel g t acc page w = (Returns ps, w') ->
    exists fresh,
      ps = acc ++ fresh
      /\ Forall (fully_fetched server decode_merge_requests fuelMR g t
                   (requests w) (requests w')) fresh.
Proof.
  induction fuel as [|fuel IH]; intros acc page w w' ps Hrun; [discriminate|].
  rewrite GetRepositories_loop_unfold in Hrun. cbv zeta in Hrun.
  destruct (server (requests w) (projectsUrl g t page)) as [response|e]; [|discriminate].
  destruct (decode_projects (Body response)) as [items|e]; [|discriminate].
  destruct (attach fuelMR g t (seq 0 (length items)) items _)
    as [[items'|e|msg|] w2] eqn:Hattach; try discriminate.
  destruct (attach_loop_effects fuelMR g t (seq 0 (length items)) items
              (after_requests [projectsUrl g t page] w)) as (new1 & Hreq1 & _).
  rewrite Hattach in Hreq1. cbn [snd] in Hreq1. rewrite requests_after in Hreq1.
  apply (attach_loop_complete fuelMR g t items []) in Hattach
    as (rest' & -> & _ & Hall).
  cbn [app] in *. rewrite requests_after in Hall.
  assert (requests w `prefix_of` requests w ++ [projectsUrl g t page]) as Hw1
    by (by apply prefix_app_r).
  unfold on_signal in Hrun.
  destruct (map_index (Header response) "X-Next-Page" !! 0%nat) as [signal|];
    [|discriminate].
  destruct (decide (signal = EmptyString)) as [Hempty|Hnonempty].
  { injection Hrun as <- <-. exists rest'. split; [done|].
    eapply Forall_impl; [exact Hall|]. intros q. by apply fully_fetched_widen. }
  destruct (Atoi signal) as [n|e]; [|discriminate].
  destruct (GetRepositories_loop_effects fuelMR g t fuel (acc ++ rest') n w2)
    as (new2 & Hreq2 & _).
  rewrite Hrun in Hreq2. cbn [snd] in Hreq2.
  apply IH in Hrun as (fresh & -> & Hfresh).
  exists (rest' ++ fresh). split; [by rewrite app_assoc|].
  apply Forall_app. split.
  - eapply Forall_impl; [exact Hall|]. intros q.
    apply fully_fetched_widen; [done|]. rewrite Hreq2. by apply prefix_app_r.
  - eapply Forall_impl; [exact Hfresh|]. intros q.
    apply fully_fetched_widen; [|done]. rewrite Hreq1. by apply prefix_app_r.
Qed.

(** What a returning project fetcher has done, in terms of the runs of the
    merge-request fetcher and of the answers it got. *)
Lemma GetRepositories_returns_fetched (fuelMR fuel : nat) (g t : string) (w w' : World)
    (ps : list Project) :
  GetRepos fuelMR fuel g t w = (Returns ps, w') ->
  Forall (fully_fetched server decode_merge_requests fuelMR g t (requests w) (requests w')) ps
  /\ exists new,
       requests w' = requests w ++ new
       /\ accepted_run server decode_projects decode_merge_requests g (requests w) new
       /\ forall (before after : list string) (url : string),
            new = before ++ url :: after ->
            exists response, server (requests w ++ before) url = inl response.
Proof.
  intros Hrun. unfold GetRepositories in Hrun.
  destruct (GetRepositories_loop_effects fuelMR g t fuel [] 1 w) as (new & Hreq & _ & Hacc).
  rewrite Hrun in Hreq, Hacc. cbn [fst snd] in Hreq, Hacc. specialize (Hacc _ eq_refl).
  apply GetRepositories_loop_complete in Hrun as (fresh & -> & Hall).
  split; [exact Hall|]. exists new. split_and!; [done | done |].
  intros before after url ->.
  apply accepted_run_app in Hacc as [_ [(response & Hget & _) _]]. eauto.
Qed.

(** ** The merge-request fetcher and the rest of the program *)


End FetcherFacts.

(** * The theorems at work on the mock servers *)

Ltac serve response :=
  intros ?; exists response;
  split_and!; [vm_compute; reflexivity | vm_compute; reflexivity
              | exists []; vm_compute; reflexivity].

Lemma paged_server_projects :
  project_pages_mocked paged_server demo_projects host tok paged_projects.
Proof.
  split; [discriminate|].
  intros [|[|k]] items Hk; cbn in Hk; inversion Hk; subst.
  - exists "2". split; [serve (page_response "projects-1" "2") | vm_compute; reflexivity].
  - exists EmptyString.
    split; [serve (page_response "projects-2" EmptyString) | vm_compute; reflexivity].
Defined.

Lemma paged_server_merges (p : Project) :
  p ∈ concat paged_projects ->
  merge_pages_mocked paged_server demo_merges host tok (Id p) (paged_merges (Id p)).
Proof.
  intros Hp. cbn in Hp.
  apply elem_of_cons in Hp as [->|Hp]; [|apply elem_of_cons in Hp as [->|Hp];
    [|apply elem_of_cons in Hp as [->|Hp]; [|by apply elem_of_nil in Hp]]];
    (split; [discriminate|]).
  - intros [|[|k]] items Hk; cbn in Hk; inversion Hk; subst.
    + exists "2". split; [serve (page_response "merges-a-1" "2") | vm_compute; reflexivity].
    + exists EmptyString.
      split; [serve (page_response "merges-a-2" EmptyString) | vm_compute; reflexivity].
  - intros [|k] items Hk; cbn in Hk; inversion Hk; subst.
    exists EmptyString.
    split; [serve (page_response "merges-none" EmptyString) | vm_compute; reflexivity].
  - intros [|k] items Hk; cbn in Hk; inversion Hk; subst.
    exists EmptyString.
    split; [serve (page_response "merges-c" EmptyString) | vm_compute; reflexivity].
Defined.

Lemma paged_server_fuel (p : Project) :
  p ∈ concat paged_projects -> (length (paged_merges (Id p)) <= 2)%nat.
Proof.
  intros Hp. cbn in Hp.
  apply elem_of_cons in Hp as [->|Hp]; [|apply elem_of_cons in Hp as [->|Hp];
    [|apply elem_of_cons in Hp as [->|Hp]; [|by apply elem_of_nil in Hp]]];
    vm_compute; lia.
Defined.

Lemma project_fetcher_visits_every_page_witness :
  exists (w' : World) (new : list string),
    GetRepositories paged_server demo_projects demo_merges 2 2 host tok no_world
    = (Returns [ SetMergeRequests pA [m1; m2; m3]; SetMergeRequests pB [];
                 SetMergeRequests pC [m4] ], w')
    /\ requests w' = new
    /\ filter (fun url => is_projects_url host url = true) new
       = [projectsUrl host tok 1; projectsUrl host tok 2].
Proof.
  destruct (project_fetcher_visits_every_page paged_server demo_projects demo_merges
              2 2 host tok paged_projects paged_merges no_world
              paged_server_projects paged_server_merges (le_n 2) paged_server_fuel)
    as (result & w' & new & Hrun & -> & Hreq & Hnew & Hfilter & _).
  exists w', new. split_and!; [exact Hrun | exact Hreq | exact Hfilter].
Defined.

Lemma merge_requests_nested_per_project_witness :
  GetRepositories nesting_server demo_projects demo_merges 1 1 host tok no_world
  = (Returns [SetMergeRequests pA [m1; m2; m3]; SetMergeRequests pB []],
     after_requests [projectsUrl host tok 1; mergesUrl host 1 tok 1; mergesUrl host 2 tok 1]
       no_world).
Proof.
  assert (serves_projects nesting_server demo_projects (projectsUrl host tok 1)
            [pA; pB] EmptyString) as Hpage
    by serve (page_response "projects-1" EmptyString).
  assert (serves_merge_requests nesting_server demo_merges (mergesUrl host (Id pA) tok 1)
            [m1; m2; m3] EmptyString) as H1
    by serve (page_response "merges-three" EmptyString).
  assert (serves_merge_requests nesting_server demo_merges (mergesUrl host (Id pB) tok 1)
            [] EmptyString) as H2
    by serve (page_response "merges-none" EmptyString).
  destruct (merge_requests_nested_per_project nesting_server demo_projects demo_merges
              0 0 host tok pA pB m1 m2 m3 EmptyString [] 1 no_world Hpage H1 H2)
    as (_ & Hrun & _).
  exact (Hrun eq_refl eq_refl).
Defined.

Lemma absent_signal_panics_witness :
  GetMergeRequests headerless_server demo_merges 1 pA host tok no_world
  = (Panics "runtime error: index out of range [0] with length 0",
     after_requests [mergesUrl host 1 tok 1] no_world)
  /\ GetRepositories headerless_server demo_projects demo_merges 1 1 host tok no_world
     = (Panics "runtime error: index out of range [0] with length 0",
        after_requests [projectsUrl host tok 1] no_world).
Proof.
  destruct (absent_signal_panics headerless_server demo_projects demo_merges) as [HM HR].
  split.
  - refine (proj2 (HM 0%nat pA host tok [] 1 no_world
                     {| Header := ∅; Body := "merges-a-1" |} [m1; m2] _ _) _);
      vm_compute; reflexivity.
  - refine (proj2 (HR 1%nat 0%nat host tok [] 1 no_world _
                     {| Header := ∅; Body := "projects-none" |} [] [] _ _ _) _);
      vm_compute; reflexivity.
Defined.

Lemma malformed_signal_is_fatal_witness :
  GetMergeRequests (signal_server "abc") demo_merges 1 pA host tok no_world
  = (Fatal (NumError "Atoi" "abc" ErrSyntax),
     {| requests := [mergesUrl host 1 tok 1];
        logged := announced [mergesUrl host 1 tok 1]
                  ++ [FatalLine (NumError "Atoi" "abc" ErrSyntax)] |}).
Proof.
  destruct (malformed_signal_is_fatal (signal_server "abc") demo_projects demo_merges)
    as (HM & _ & _).
  refine (proj1 (HM 0%nat pA host tok [] 1 no_world (page_response "merges-a-1" "abc")
                   [m1; m2] "abc" [] (NumError "Atoi" "abc" ErrSyntax) _ _ _ _ _));
    try (vm_compute; reflexivity).
  discriminate.
Defined.

Lemma parsed_signal_selects_next_page_witness :
  exists later,
    requests (GetMergeRequests (signal_server "7") demo_merges 2 pA host tok no_world).2
    = mergesUrl host 1 tok 1 :: mergesUrl host 1 tok 7 :: later.
Proof.
  destruct (parsed_signal_selects_next_page (signal_server "7") demo_projects demo_merges)
    as (HM & _).
  refine (proj2 (HM 0%nat pA host tok [] 1 no_world (page_response "merges-a-1" "7")
                   [m1; m2] "7" [] 7 _ _ _ _));
    vm_compute; reflexivity.
Defined.

(** C5, as stated, fails: the signals [0] and [-1] are integers for [Atoi],
    neither is positive, and both loops go on with them, requesting page 0
    and page -1. *)
Lemma nonpositive_signal_is_followed :
  Atoi "0" = inl 0
  /\ Atoi "-1" = inl (-1)
  /\ GetMergeRequests (signal_server "0") demo_merges 2 pA host tok no_world
     = (Returns [m1; m2; m3],
        after_requests [mergesUrl host 1 tok 1; mergesUrl host 1 tok 0] no_world)
  /\ GetMergeRequests (signal_server "-1") demo_merges 2 pA host tok no_world
     = (Returns [m1; m2; m3],
        after_requests [mergesUrl host 1 tok 1; mergesUrl host 1 tok (-1)] no_world)
  /\ GetRepositories (signal_server "0") demo_projects demo_merges 2 2 host tok no_world
     = (Returns [],
        after_requests [projectsUrl host tok 1; projectsUrl host tok 0] no_world)
  /\ mergesUrl host 1 tok 0
     = "https://git.example.com/api/v4/projects/1/merge_requests?private_token=tok123&per_page=100&statistics=1&page=0".
Proof. split_and!; vm_compute; reflexivity. Qed.


(** * Further properties of the renderer *)

Lemma occurrences_ReplaceAllString_other (c pat : ascii) (s repl : string) :
  Ascii.eqb pat c = false -> occurrences c repl = 0%nat ->
  occurrences c (ReplaceAllString pat s repl) = occurrences c s.
Proof.
  intros Hne Hrepl. induction s as [|x s IH]; [reflexivity|].
  cbn [ReplaceAllString occurrences]. destruct (Ascii.eqb x pat) eqn:E.
  - apply Ascii.eqb_eq in E. subst x. rewrite Hne, occurrences_app, Hrepl, IH. reflexivity.
  - cbn [occurrences]. by rewrite IH.
Qed.

Lemma split_on_clean (sep : ascii) (s : string) :
  occurrences sep s = 0%nat -> split_on sep s = [s].
Proof.
  induction s as [|c s IH]; [reflexivity|].
  cbn [occurrences split_on]. destruct (Ascii.eqb c sep); [discriminate|].
  intros H. by rewrite IH.
Qed.

Lemma split_on_app_clean (sep : ascii) (a b : string) :
  occurrences sep a = 0%nat ->
  split_on sep (a +:+ b)
  = match split_on sep b with
    | first :: others => (a +:+ first) :: others
    | [] => [a]
    end.
Proof.
  induction a as [|c a IH]; intros Ha.
  - rewrite string_app_nil_l. destruct (split_on sep b) eqn:E; [|reflexivity].
    by destruct (split_on_nonempty sep b).
  - rewrite string_app_cons. cbn [occurrences split_on] in *.
    destruct (Ascii.eqb c sep); [discriminate|].
    rewrite IH by done. by destruct (split_on sep b).
Qed.

Lemma split_on_render_lines (ls : list MetricLine) :
  Forall (fun l => occurrences newline (render_line l) = 0%nat) ls ->
  split_on newline (render_lines ls) = EmptyString :: map render_line ls.
Proof.
  induction 1 as [|l ls Hl Hls IH]; [reflexivity|].
  cbn [render_lines map]. unfold nl. rewrite string_app_cons, string_app_nil_l.
  cbn [split_on]. change (Ascii.eqb "010" newline) with true. cbn iota.
  rewrite split_on_app_clean, IH by done. by rewrite string_app_nil_r.
Qed.

Lemma counter_line_single (name label : string) (v : Z) :
  occurrences newline name = 0%nat -> occurrences newline label = 0%nat ->
  occurrences newline (render_line (counter_line name label v)) = 0%nat.
Proof.
  intros Hname Hlabel. unfold render_line, counter_line, render_label.
  cbn [metric_name metric_labels metric_value map join fst snd].
  rewrite !occurrences_app, Hname, Hlabel.
  rewrite pretty_Z_occurrences by (reflexivity || discriminate). reflexivity.
Qed.

Lemma merge_request_line_single (label : string) (m : MergeRequest) :
  occurrences newline label = 0%nat ->
  occurrences newline (State m) = 0%nat ->
  occurrences newline (MergeStatus m) = 0%nat ->
  occurrences newline (TargetBranch m) = 0%nat ->
  occurrences newline (render_line (merge_request_line label m)) = 0%nat.
Proof.
  intros Hlabel H1 H2 H3. unfold render_line, merge_request_line, render_label.
  cbn [metric_name metric_labels metric_value map join fst snd].
  rewrite !occurrences_app, Hlabel, H1, H2, H3. reflexivity.
Qed.

(** X1. When neither the path nor the state, merge status and target branch
    of any merge request holds a newline, cutting the rendered text at its
    newlines gives an empty first piece and then exactly the metric lines:
    seven counters, one line per merge request, and the last-activity
    line. *)
Theorem rendered_text_splits_into_lines (project : Project) :
  occurrences newline (PathWithNamespace project) = 0%nat ->
  Forall (fun m => occurrences newline (State m) = 0%nat
                   /\ occurrences newline (MergeStatus m) = 0%nat
                   /\ occurrences newline (TargetBranch m) = 0%nat)
    (MergeRequests project) ->
  split_on newline (PrometheusStats project)
  = EmptyString
    :: map render_line
         (leading_counters project
          ++ map (merge_request_line (repo_label project)) (MergeRequests project)
          ++ [last_activity_line project])
  /\ length (split_on newline (PrometheusStats project))
     = (9 + length (MergeRequests project))%nat.
Proof.
  intros Hpath Hmrs.
  assert (occurrences newline (repo_label project) = 0%nat) as Hlabel.
  { unfold repo_label. by rewrite occurrences_ReplaceAllString_other. }
  assert (split_on newline (PrometheusStats project)
          = EmptyString
            :: map render_line
                 (leading_counters project
                  ++ map (merge_request_line (repo_label project)) (MergeRequests project)
                  ++ [last_activity_line project])) as Hsplit.
  { rewrite PrometheusStats_lines. apply split_on_render_lines.
    rewrite !Forall_app. split_and!.
    - unfold leading_counters. repeat constructor; by apply counter_line_single.
    - apply Forall_forall. intros l Hl.
      apply list_elem_of_In, in_map_iff in Hl as (m & <- & Hm).
      apply list_elem_of_In in Hm.
      rewrite Forall_forall in Hmrs. destruct (Hmrs m Hm) as (H1 & H2 & H3).
      by apply merge_request_line_single.
    - repeat constructor. by apply counter_line_single. }
  split; [exact Hsplit|].
  rewrite Hsplit. cbn [length]. rewrite length_map, !length_app, length_map. cbn. lia.
Qed.

Lemma rendered_text_splits_into_lines_witness :
  length (split_on newline (PrometheusStats pA_relabelled)) = 10%nat.
Proof.
  assert (occurrences newline (PathWithNamespace pA_relabelled) = 0%nat) as H1
    by reflexivity.
  assert (Forall (fun m => occurrences newline (State m) = 0%nat
                           /\ occurrences newline (MergeStatus m) = 0%nat
                           /\ occurrences newline (TargetBranch m) = 0%nat)
            (MergeRequests pA_relabelled)) as H2
    by (repeat constructor).
  exact (proj2 (rendered_text_splits_into_lines pA_relabelled H1 H2)).
Defined.

(** X2. The rendered text depends on nothing but the path, the star and fork
    counts, the statistics, the second of last activity and, of each merge
    request, its state, merge status and target branch: two projects that
    agree on these render alike, whatever their ids, open-issue counts,
    merge-request titles and timestamps are. *)
Theorem rendering_reads_only_these_fields (p q : Project) :
  PathWithNamespace p = PathWithNamespace q ->
  StarCount p = StarCount q ->
  ForkCount p = ForkCount q ->
  Statistics p = Statistics q ->
  Unix (LastActivityAt p) = Unix (LastActivityAt q) ->
  map rendered_fields (MergeRequests p) = map rendered_fields (MergeRequests q) ->
  PrometheusStats p = PrometheusStats q.
Proof.
  intros Hpath Hstar Hfork Hstat Htime Hmrs.
  rewrite !PrometheusStats_lines.
  unfold leading_counters, last_activity_line, repo_label.
  rewrite Hpath, Hstar, Hfork, Hstat, Htime.
  do 2 f_equal. f_equal.
  set (label := ReplaceAllString slash (PathWithNamespace q) "___").
  assert (forall ms, map (merge_request_line label) ms
                     = map (fun '(s, st, b) =>
                              {| metric_name := "gitlab_project_merge_request";
                                 metric_labels := [("repo", label); ("state", s);
                                                   ("merge_status", st);
                                                   ("target_branch", b)];
                                 metric_value := 1 |}) (map rendered_fields ms)) as Hmap.
  { intros ms. rewrite map_map. reflexivity. }
  by rewrite !Hmap, Hmrs.
Qed.

Lemma rendering_reads_only_these_fields_witness :
  PrometheusStats (SetMergeRequests pA [m1]) = PrometheusStats pA_relabelled
  /\ Id (SetMergeRequests pA [m1]) <> Id pA_relabelled.
Proof.
  split; [|discriminate].
  apply (rendering_reads_only_these_fields (SetMergeRequests pA [m1]) pA_relabelled);
    reflexivity.
Defined.

(** * Further properties of the fetchers *)

Lemma decoded_along_app {A : Type} (server : list string -> string -> Response + error)
    (decode : string -> list A + error) (sel : string -> bool) (h a b : list string) :
  decoded_along server decode sel h (a ++ b)
  = decoded_along server decode sel h a ++ decoded_along server decode sel (h ++ a) b.
Proof.
  revert h. induction a as [|u a IH]; intros h.
  - cbn. by rewrite app_nil_r.
  - cbn [app decoded_along]. rewrite IH, <- !app_assoc. reflexivity.
Qed.

Lemma decoded_along_unselected {A : Type}
    (server : list string -> string -> Response + error)
    (decode : string -> list A + error) (sel : string -> bool) (h new : list string) :
  Forall (fun url => sel url = false) new ->
  decoded_along server decode sel h new = [].
Proof.
  intros Hnew. revert h. induction Hnew as [|u new Hu _ IH]; intros h; [reflexivity|].
  cbn [decoded_along]. by rewrite Hu, IH.
Qed.

Lemma strip_SetMergeRequests (p : Project) (mrs : list MergeRequest) :
  strip (SetMergeRequests p mrs) = strip p.
Proof. reflexivity. Qed.

Lemma parse_digits_pretty_N_go_overflow (x : N) :
  maxUint64 < Z.of_N x ->
  parse_digits (pretty_N_go x EmptyString) 0 = inr ErrRange.
Proof.
  induction (N.lt_wf_0 x) as [x _ IH]; intros Hbig.
  assert (0 < x)%N as Hpos by (unfold maxUint64 in Hbig; lia).
  assert (x `div` 10 < x)%N as Hlt by (by apply N.div_lt).
  assert (Z.of_N x = Z.of_N (x `div` 10) * 10 + Z.of_N (x `mod` 10)) as Hdm.
  { pose proof (N.div_mod x 10 ltac:(done)) as Hx10.
    rewrite Hx10 at 1. rewrite N2Z.inj_add, N2Z.inj_mul.
    generalize (Z.of_N (x `div` 10)) (Z.of_N (x `mod` 10)). intros a b. lia. }
  rewrite pretty_N_go_step, pretty_N_go_app, parse_digits_app by exact Hpos.
  destruct (decide (Z.of_N (x `div` 10) <= maxUint64)) as [Hsmall|Hlarge].
  - rewrite parse_digits_pretty_N_go by done. cbn [parse_digits].
    rewrite digit_value_pretty_N_char by (by apply N.mod_lt).
    rewrite <- Hdm.
    destruct (maxUint64 <? Z.of_N x) eqn:E; [reflexivity|].
    apply Z.ltb_ge in E. revert E Hbig. generalize (Z.of_N x). intros a. lia.
  - rewrite IH; [reflexivity | done |].
    revert Hlarge. generalize (Z.of_N (x `div` 10)). intros a. lia.
Qed.

(** An integer outside the 64-bit range, printed in decimal, is a range
    error for [Atoi]. *)
Lemma Atoi_pretty_out_of_range (n : Z) :
  n < minInt64 \/ maxInt64 < n ->
  Atoi (pretty n) = inr (NumError "Atoi" (pretty n) ErrRange).
Proof.
  intros Hn. unfold minInt64, maxInt64 in Hn.
  destruct n as [|p|p]; [lia| |].
  - destruct (pretty_positive_digits p) as (c & rest & Hs & Hminus & Hplus & Hparse).
    unfold pretty, pretty_Z. rewrite Hs. unfold Atoi. rewrite Hminus, Hplus.
    cbn [orb]. destruct (decide (Z.pos p <= maxUint64)) as [Hsmall|Hlarge].
    + rewrite Hparse by done.
      destruct (maxInt64 <? Z.pos p) eqn:E; [reflexivity|].
      apply Z.ltb_ge in E. unfold maxInt64 in E. lia.
    + replace (parse_digits (String c rest) 0) with (@inr Z NumErrorKind ErrRange);
        [reflexivity|].
      rewrite <- Hs. unfold pretty, pretty_positive, pretty, pretty_N.
      destruct (decide (N.pos p = 0)%N); [lia|].
      symmetry. apply (parse_digits_pretty_N_go_overflow (N.pos p)).
      change (Z.of_N (N.pos p)) with (Z.pos p). lia.
  - destruct (pretty_positive_digits p) as (c & rest & Hs & _ & _ & Hparse).
    unfold pretty, pretty_Z. rewrite Hs. rewrite string_app_cons, string_app_nil_l.
    unfold Atoi. change (Ascii.eqb "-" "-") with true. cbn [orb].
    destruct (decide (Z.pos p <= maxUint64)) as [Hsmall|Hlarge].
    + rewrite Hparse by done.
      destruct (- Z.pos p <? minInt64) eqn:E; [reflexivity|].
      apply Z.ltb_ge in E. unfold minInt64 in E. lia.
    + replace (parse_digits (String c rest) 0) with (@inr Z NumErrorKind ErrRange);
        [reflexivity|].
      rewrite <- Hs. unfold pretty, pretty_positive, pretty, pretty_N.
      destruct (decide (N.pos p = 0)%N); [lia|].
      symmetry. apply (parse_digits_pretty_N_go_overflow (N.pos p)).
      change (Z.of_N (N.pos p)) with (Z.pos p). lia.
Qed.

Section FetcherMore.

Variable server : list string -> string -> Response + error.
Variable decode_projects : string -> list Project + error.
Variable decode_merge_requests : string -> list MergeRequest + error.

Local Abbreviation MRloop := (GetMergeRequests_loop server decode_merge_requests).
Local Abbreviation GetMRs := (GetMergeRequests server decode_merge_requests).
Local Abbreviation attach := (attach_loop server decode_merge_requests).
Local Abbreviation Rloop := (GetRepositories_loop server decode_projects decode_merge_requests).
Local Abbreviation GetRepos := (GetRepositories server decode_projects decode_merge_requests).

Ltac world_norm :=
  unfold log_Fatalf, after_requests, announced, last_words;
  cbn [fst snd requests logged map app]; rewrite <- ?app_assoc; cbn [app].

Lemma header_first (response : Response) (signal : string) :
  map_index (Header response) "X-Next-Page" !! 0%nat = Some signal ->
  exists more, Header response !! "X-Next-Page" = Some (signal :: more).
Proof.
  unfold map_index. intros Hsig.
  destruct (Header response !! "X-Next-Page") as [[|s more]|]; try done.
  exists more. cbn in Hsig. congruence.
Qed.

(** What a returning merge-request loop has done. *)
Lemma GetMergeRequests_loop_result (g t : string) (p : Project) :
  forall (fuel : nat) (acc : list MergeRequest) (page : Z) (w w' : World)
         (mrs : list MergeRequest),
    MRloop fuel p g t acc page w = (Returns mrs, w') ->
    exists new : list string,
      requests w' = requests w ++ new
      /\ mrs = acc ++ decoded_along server decode_merge_requests (fun _ => true)
                        (requests w) new
      /\ ends_on_empty_signal server (requests w) new
      /\ exists rest, new = mergesUrl g (Id p) t page :: rest.
Proof.
  induction fuel as [|fuel IH]; intros acc page w w' mrs Hrun; [discriminate|].
  rewrite GetMergeRequests_loop_unfold in Hrun. cbv zeta in Hrun.
  set (url := mergesUrl g (Id p) t page) in *.
  destruct (server (requests w) url) as [response|e] eqn:Hget; [|discriminate].
  destruct (decode_merge_requests (Body response)) as [items|e] eqn:Hbody; [|discriminate].
  unfold on_signal in Hrun.
  destruct (map_index (Header response) "X-Next-Page" !! 0%nat) as [signal|] eqn:Hsig;
    [|discriminate].
  apply header_first in Hsig as [more Hheader].
  destruct (decide (signal = EmptyString)) as [->|Hne].
  { injection Hrun as <- <-. exists [url]. split_and!.
    - reflexivity.
    - cbn [decoded_along]. by rewrite Hget, Hbody, app_nil_r.
    - exists [], url, response, more. by rewrite app_nil_r.
    - by eexists. }
  destruct (Atoi signal) as [n|e]; [|discriminate].
  apply IH in Hrun as (new & Hreq & Hmrs & Hend & _).
  rewrite requests_after in Hreq, Hmrs, Hend.
  exists (url :: new). split_and!.
  - by rewrite Hreq, <- app_assoc.
  - cbn [decoded_along]. by rewrite Hget, Hbody, Hmrs, <- app_assoc.
  - destruct Hend as (before & u & r & mo & -> & Hu & Hh).
    exists (url :: before), u, r, mo. split_and!; [done| |done].
    by rewrite <- app_assoc in Hu.
  - by eexists.
Qed.

(** X3. Whenever the merge-request fetcher returns, against any server, its
    result is the concatenation, in request order, of the items decoded from
    the answers to its requests; the first request was for page 1, and the
    last answer carried the empty signal. *)
Theorem merge_requests_are_the_decoded_pages (fuel : nat) (g t : string) (p : Project)
    (w w' : World) (mrs : list MergeRequest) :
  GetMRs fuel p g t w = (Returns mrs, w') ->
  exists new : list string,
    requests w' = requests w ++ new
    /\ mrs = decoded_along server decode_merge_requests (fun _ => true) (requests w) new
    /\ ends_on_empty_signal server (requests w) new
    /\ exists rest, new = mergesUrl g (Id p) t 1 :: rest.
Proof.
  intros Hrun. apply GetMergeRequests_loop_result in Hrun as (new & H1 & H2 & H3 & H4).
  by exists new.
Qed.

Lemma attach_loop_strip (fuelMR : nat) (g t : string) :
  forall (indices : list nat) (items items' : list Project) (w w' : World),
    attach fuelMR g t indices items w = (Returns items', w') ->
    map strip items' = map strip items
    /\ exists new, requests w' = requests w ++ new
                   /\ Forall (fun url => is_projects_url g url = false) new.
Proof.
  induction indices as [|i indices IH]; intros items items' w w' Hrun.
  { cbn in Hrun. injection Hrun as <- <-. split; [done|]. exists []. by rewrite app_nil_r. }
  rewrite attach_loop_unfold in Hrun.
  destruct (items !! i) as [p|] eqn:Hi; [|discriminate].
  destruct (GetMergeRequests_effects server decode_projects decode_merge_requests
              fuelMR g t p w) as (new1 & Hreq1 & _ & Hall1 & _).
  destruct (GetMRs fuelMR p g t w) as [[mrs|e|msg|] w1]; try discriminate.
  cbn [snd] in Hreq1.
  apply IH in Hrun as (Hstrip & new2 & Hreq2 & Hall2).
  split.
  - rewrite Hstrip, (list_fmap_insert strip), strip_SetMergeRequests.
    apply list_insert_id. by rewrite list_lookup_fmap, Hi.
  - exists (new1 ++ new2). split; [by rewrite Hreq2, Hreq1, app_assoc|].
    apply Forall_app. split; [|done].
    eapply Forall_impl; [exact Hall1|]. intros url [k ->].
    apply is_projects_url_merges.
Qed.

Lemma GetRepositories_loop_result (fuelMR : nat) (g t : string) :
  forall (fuel : nat) (acc : list Project) (page : Z) (w w' : World) (ps : list Project),
    Rloop fuelMR fuel g t acc page w = (Returns ps, w') ->
    exists new : list string,
      requests w' = requests w ++ new
      /\ map strip ps
         = map strip (acc ++ decoded_along server decode_projects (is_projects_url g)
                               (requests w) new).
Proof.
  induction fuel as [|fuel IH]; intros acc page w w' ps Hrun; [discriminate|].
  rewrite GetRepositories_loop_unfold in Hrun. cbv zeta in Hrun.
  set (url := projectsUrl g t page) in *.
  destruct (server (requests w) url) as [response|e] eqn:Hget; [|discriminate].
  destruct (decode_projects (Body response)) as [items|e] eqn:Hbody; [|discriminate].
  destruct (attach fuelMR g t (seq 0 (length items)) items (after_requests [url] w))
    as [[items'|e|msg|] w2] eqn:Hattach; try discriminate.
  apply attach_loop_strip in Hattach as (Hstrip & new1 & Hreq1 & Hall1).
  rewrite requests_after in Hreq1.
  assert (decoded_along server decode_projects (is_projects_url g) (requests w)
            (url :: new1) = items) as Hpage.
  { cbn [decoded_along]. unfold url at 1. rewrite is_projects_url_projects.
    fold url. rewrite Hget, Hbody, decoded_along_unselected by done.
    by rewrite app_nil_r. }
  unfold on_signal in Hrun.
  destruct (map_index (Header response) "X-Next-Page" !! 0%nat) as [signal|];
    [|discriminate].
  destruct (decide (signal = EmptyString)) as [Hempty|Hne].
  { injection Hrun as <- <-. exists (url :: new1). split.
    - by rewrite Hreq1, <- app_assoc.
    - by rewrite Hpage, !map_app, Hstrip. }
  destruct (Atoi signal) as [n|e]; [|discriminate].
  apply IH in Hrun as (new2 & Hreq2 & Hps).
  exists ((url :: new1) ++ new2). split.
  - rewrite Hreq2, Hreq1, <- !app_assoc. reflexivity.
  - rewrite Hps, decoded_along_app, Hpage, Hreq1.
    rewrite <- (app_assoc (requests w) [url] new1).
    rewrite !map_app, Hstrip, <- !app_assoc. reflexivity.
Qed.

(** X4. Whenever the project fetcher returns, against any server, the
    projects it returns are, but for their merge requests, the projects
    decoded from the answers to its project-list requests, page after page:
    none is dropped, added, reordered or changed in another field. *)
Theorem projects_are_the_decoded_pages (fuelMR fuel : nat) (g t : string)
    (w w' : World) (ps : list Project) :
  GetRepos fuelMR fuel g t w = (Returns ps, w') ->
  exists new : list string,
    requests w' = requests w ++ new
    /\ map strip ps
       = map strip (decoded_along server decode_projects (is_projects_url g)
                      (requests w) new)
    /\ length ps
       = length (decoded_along server decode_projects (is_projects_url g)
                   (requests w) new).
Proof.
  intros Hrun. apply GetRepositories_loop_result in Hrun as (new & Hreq & Hps).
  exists new. split_and!; [done | done |].
  apply (f_equal length) in Hps. by rewrite !length_map in Hps.
Qed.

(** The merge-request loop along pages that all announce their successor. *)
Lemma GetMergeRequests_loop_follow (p : Project) (g t : string) :
  forall (rest : list (list MergeRequest)) (j fuel : nat) (acc : list MergeRequest) (w : World),
    (forall (k : nat) (items : list MergeRequest),
        rest !! k = Some items ->
        exists signal,
          serves_merge_requests server decode_merge_requests
            (mergesUrl g (Id p) t (Z.of_nat (j + k) + 1)) items signal
          /\ Atoi signal = inl (Z.of_nat (j + k) + 2)) ->
    MRloop (length rest + fuel) p g t acc (Z.of_nat j + 1) w
    = MRloop fuel p g t (acc ++ concat rest) (Z.of_nat (j + length rest) + 1)
        (after_requests
           (map (fun k => mergesUrl g (Id p) t (Z.of_nat k)) (seq (S j) (length rest))) w).
Proof.
  induction rest as [|items rest IH]; intros j fuel acc w Hpages.
  { cbn. by rewrite after_requests_nil, app_nil_r, Nat.add_0_r. }
  destruct (Hpages 0%nat items eq_refl) as (signal & Hserve & Hchain).
  destruct (Hserve (requests w)) as (response & Hget & Hbody & more & Hheader).
  rewrite Nat.add_0_r in Hget, Hchain.
  cbn [length seq map concat Nat.add]. rewrite after_requests_cons.
  replace (Z.of_nat (S j)) with (Z.of_nat j + 1) by lia.
  rewrite GetMergeRequests_loop_unfold. cbv zeta. rewrite Hget, Hbody.
  rewrite (on_signal_next _ signal more (Z.of_nat (S j) + 1)) by (done || (rewrite Hchain; f_equal; lia)).
  rewrite (IH (S j) fuel).
  - rewrite app_assoc.
    by replace (Z.of_nat (S j + length rest)) with (Z.of_nat (j + S (length rest))) by lia.
  - intros k its Hk. destruct (Hpages (S k) its Hk) as (sg & Hs & Hc).
    exists sg. replace (S j + k)%nat with (j + S k)%nat by lia. done.
Qed.

(** X5. When the pages 1 to N of a project's merge requests are served,
    each announcing its successor, and page N + 1 is refused by the
    transport or does not decode, the fetcher ends in [log.Fatalf] with that
    error after N + 1 requests: the items of the N good pages are not
    returned. *)
Theorem later_page_error_discards_earlier_pages (fuel : nat) (g t : string) (p : Project)
    (pages : list (list MergeRequest)) (e : error) (w : World) :
  (forall (k : nat) (items : list MergeRequest),
      pages !! k = Some items ->
      exists signal,
        serves_merge_requests server decode_merge_requests
          (mergesUrl g (Id p) t (Z.of_nat k + 1)) items signal
        /\ Atoi signal = inl (Z.of_nat k + 2)) ->
  (forall history,
      server history (mergesUrl g (Id p) t (Z.of_nat (length pages) + 1)) = inr e
      \/ exists response,
           server history (mergesUrl g (Id p) t (Z.of_nat (length pages) + 1)) = inl response
           /\ decode_merge_requests (Body response) = inr e) ->
  GetMRs (length pages + S fuel) p g t w
  = (Fatal e,
     {| requests := requests w ++ merge_page_urls g t (Id p) (S (length pages));
        logged := logged w ++ announced (merge_page_urls g t (Id p) (S (length pages)))
                  ++ [FatalLine e] |}).
Proof.
  intros Hpages Hbad. unfold GetMergeRequests.
  change 1 with (Z.of_nat 0 + 1).
  rewrite (GetMergeRequests_loop_follow p g t pages 0 (S fuel) [] w) by done.
  cbn [Nat.add app]. rewrite GetMergeRequests_loop_unfold. cbv zeta.
  assert (merge_page_urls g t (Id p) (S (length pages))
          = map (fun k => mergesUrl g (Id p) t (Z.of_nat k)) (seq 1 (length pages))
            ++ [mergesUrl g (Id p) t (Z.of_nat (length pages) + 1)]) as Hurls.
  { unfold merge_page_urls. rewrite seq_S, map_app. cbn [map].
    by replace (Z.of_nat (1 + length pages)) with (Z.of_nat (length pages) + 1) by lia. }
  rewrite Hurls. unfold announced. rewrite map_app.
  destruct (Hbad (requests w ++ map (fun k => mergesUrl g (Id p) t (Z.of_nat k))
                                (seq 1 (length pages))))
    as [Hget|(response & Hget & Hbody)];
    rewrite requests_after, Hget; [|rewrite Hbody];
    world_norm; reflexivity.
Qed.

(** The loop over a page's projects when the first merge-request request
    of one project is refused. *)
Lemma attach_loop_refused (fuelMR : nat) (g t : string)
    (mr_pages : Z -> list (list MergeRequest)) (p : Project) (later : list Project)
    (e : error) :
  (forall history, server history (mergesUrl g (Id p) t 1) = inr e) ->
  forall (good done : list Project) (w : World),
    Forall (fun q => merge_pages_mocked server decode_merge_requests g t (Id q)
                       (mr_pages (Id q))
                     /\ (length (mr_pages (Id q)) <= S fuelMR)%nat) good ->
    attach (S fuelMR) g t (seq (length done) (length (good ++ p :: later)))
      (done ++ good ++ p :: later) w
    = log_Fatalf e
        (after_requests
           (flat_map (fun q => merge_page_urls g t (Id q) (length (mr_pages (Id q)))) good
            ++ [mergesUrl g (Id p) t 1]) w).
Proof.
  intros Hrefused. induction good as [|q good IH]; intros done w Hgood.
  - cbn [app length seq flat_map]. rewrite attach_loop_unfold.
    rewrite list_lookup_middle by reflexivity.
    unfold GetMergeRequests. rewrite GetMergeRequests_loop_unfold. cbv zeta.
    by rewrite Hrefused.
  - apply Forall_cons in Hgood as [[Hmock Hfuel] Hgood].
    cbn [app length seq flat_map]. rewrite attach_loop_unfold.
    rewrite list_lookup_middle by reflexivity.
    rewrite (GetMergeRequests_pages server decode_merge_requests q g t (mr_pages (Id q)))
      by done.
    rewrite insert_app_r_alt by lia. rewrite Nat.sub_diag. cbn [insert list_insert].
    replace (done ++ SetMergeRequests q (concat (mr_pages (Id q))) :: good ++ p :: later)
      with ((done ++ [SetMergeRequests q (concat (mr_pages (Id q)))]) ++ good ++ p :: later)
      by (by rewrite <- app_assoc).
    replace (S (length done))
      with (length (done ++ [SetMergeRequests q (concat (mr_pages (Id q)))]))
      by (rewrite length_app; cbn; lia).
    rewrite IH by done.
    by rewrite <- app_assoc, !after_requests_app.
Qed.

(** X6. When the first merge-request request for one project of a page is
    refused, the project fetcher ends in [log.Fatalf] with that error: the
    projects before it on the page were fetched in full and are lost with
    it, and no request is made for the projects after it. *)
Theorem failed_project_ends_the_fetch (fuelMR fuel : nat) (g t : string)
    (mr_pages : Z -> list (list MergeRequest)) (good later : list Project) (p : Project)
    (signal : string) (e : error) (acc : list Project) (page : Z) (w : World) :
  serves_projects server decode_projects (projectsUrl g t page) (good ++ p :: later) signal ->
  Forall (fun q => merge_pages_mocked server decode_merge_requests g t (Id q)
                     (mr_pages (Id q))
                   /\ (length (mr_pages (Id q)) <= S fuelMR)%nat) good ->
  (forall history, server history (mergesUrl g (Id p) t 1) = inr e) ->
  exists w' : World,
    Rloop (S fuelMR) (S fuel) g t acc page w = (Fatal e, w')
    /\ requests w'
       = requests w
         ++ projectsUrl g t page
            :: flat_map (fun q => merge_page_urls g t (Id q) (length (mr_pages (Id q)))) good
            ++ [mergesUrl g (Id p) t 1].
Proof.
  intros Hpage Hgood Hrefused.
  destruct (Hpage (requests w)) as (response & Hget & Hbody & _).
  rewrite GetRepositories_loop_unfold. cbv zeta. rewrite Hget, Hbody.
  rewrite (attach_loop_refused fuelMR g t mr_pages p later e Hrefused good [] _ Hgood).
  eexists. split; [reflexivity|]. world_norm. reflexivity.
Qed.

(** X7. A page whose signal is its own index is requested over and over:
    whatever the fuel, the merge-request fetcher has not returned when it
    runs out, and its requests are that many copies of the same URL.  The
    loop has no page limit and does not notice the repetition. *)
Theorem self_pointing_page_never_ends (fuel : nat) (g t : string) (p : Project)
    (items : list MergeRequest) (signal : string) (w : World) :
  serves_merge_requests server decode_merge_requests (mergesUrl g (Id p) t 1) items signal ->
  Atoi signal = inl 1 ->
  GetMRs fuel p g t w
  = (OutOfFuel, after_requests (replicate fuel (mergesUrl g (Id p) t 1)) w).
Proof.
  intros Hserve Hsignal. unfold GetMergeRequests. generalize (@nil MergeRequest).
  revert w. induction fuel as [|fuel IH]; intros w acc.
  { cbn. by rewrite after_requests_nil. }
  destruct (Hserve (requests w)) as (response & Hget & Hbody & more & Hheader).
  rewrite GetMergeRequests_loop_unfold. cbv zeta. rewrite Hget, Hbody.
  rewrite (on_signal_next _ signal more 1) by done.
  rewrite IH. cbn [replicate]. by rewrite (after_requests_cons _ (replicate fuel _)).
Qed.

Lemma mergesUrl_carries_token (g : string) (id : Z) (t : string) (page : Z) :
  carries_token t (mergesUrl g id t page).
Proof.
  exists (g +:+ "/api/v4/projects/" +:+ pretty id +:+ "/merge_requests?"),
         ("&per_page=100&statistics=1&page=" +:+ pretty page).
  rewrite mergesUrl_shape, !string_app_assoc. reflexivity.
Qed.

Lemma projectsUrl_carries_token (g t : string) (page : Z) :
  carries_token t (projectsUrl g t page).
Proof.
  exists (g +:+ "/api/v4/projects?"), ("&per_page=100&statistics=1&page=" +:+ pretty page).
  rewrite projectsUrl_shape, !string_app_assoc. reflexivity.
Qed.

Lemma announced_app (a b : list string) : announced (a ++ b) = announced a ++ announced b.
Proof. apply map_app. Qed.

Lemma attach_loop_log (fuelMR : nat) (g t : string) :
  forall (indices : list nat) (items : list Project) (w : World),
    exists new : list string,
      requests (attach fuelMR g t indices items w).2 = requests w ++ new
      /\ logged (attach fuelMR g t indices items w).2
         = logged w ++ announced new ++ last_words (attach fuelMR g t indices items w).1
      /\ Forall (carries_token t) new.
Proof.
  induction indices as [|i indices IH]; intros items w.
  { exists []. cbn. by rewrite !app_nil_r. }
  rewrite attach_loop_unfold.
  destruct (items !! i) as [p|]; [|exists []; cbn; by rewrite !app_nil_r].
  destruct (GetMergeRequests_effects server decode_projects decode_merge_requests
              fuelMR g t p w) as (new1 & Hreq1 & Hlog1 & Hall1 & _).
  assert (Forall (carries_token t) new1) as Htok1.
  { eapply Forall_impl; [exact Hall1|]. intros url [k ->]. apply mergesUrl_carries_token. }
  destruct (GetMRs fuelMR p g t w) as [[mrs|e|msg|] w1]; cbn [fst snd] in *;
    try (exists new1; by split_and!).
  destruct (IH (<[i := SetMergeRequests p mrs]> items) w1) as (new2 & Hreq2 & Hlog2 & Htok2).
  exists (new1 ++ new2). split_and!.
  - by rewrite Hreq2, Hreq1, app_assoc.
  - rewrite Hlog2, Hlog1, announced_app. cbn [last_words].
    by rewrite app_nil_r, <- !app_assoc.
  - by apply Forall_app.
Qed.

Lemma GetRepositories_loop_log (fuelMR : nat) (g t : string) :
  forall (fuel : nat) (acc : list Project) (page : Z) (w : World),
    exists new : list string,
      requests (Rloop fuelMR fuel g t acc page w).2 = requests w ++ new
      /\ logged (Rloop fuelMR fuel g t acc page w).2
         = logged w ++ announced new ++ last_words (Rloop fuelMR fuel g t acc page w).1
      /\ Forall (carries_token t) new.
Proof.
  induction fuel as [|fuel IH]; intros acc page w.
  { exists []. cbn. by rewrite !app_nil_r. }
  rewrite GetRepositories_loop_unfold. cbv zeta.
  set (url := projectsUrl g t page).
  assert (Forall (carries_token t) [url]) as Hurl
    by (repeat constructor; apply projectsUrl_carries_token).
  destruct (server (requests w) url) as [response|e].
  2:{ exists [url]. world_norm. by split_and!. }
  destruct (decode_projects (Body response)) as [items|e].
  2:{ exists [url]. world_norm. by split_and!. }
  destruct (attach_loop_log fuelMR g t (seq 0 (length items)) items
              (after_requests [url] w)) as (new1 & Hreq1 & Hlog1 & Htok1).
  assert (Forall (carries_token t) (url :: new1)) as Htok by (by constructor; [inversion Hurl|]).
  destruct (attach fuelMR g t (seq 0 (length items)) items (after_requests [url] w))
    as [[items'|e|msg|] w2]; cbn [fst snd] in *;
    unfold after_requests in Hreq1, Hlog1; cbn [requests logged map] in Hreq1, Hlog1;
    try (exists (url :: new1); rewrite Hreq1, Hlog1; world_norm; by split_and!).
  cbn [app] in Hlog1. rewrite app_nil_r in Hlog1.
  unfold on_signal.
  destruct (map_index (Header response) "X-Next-Page" !! 0%nat) as [signal|].
  2:{ exists (url :: new1). cbn [fst snd]. rewrite Hreq1, Hlog1. world_norm.
      rewrite ?app_nil_r. by split_and!. }
  destruct (decide (signal = EmptyString)) as [Hempty|Hne].
  { exists (url :: new1). cbn [fst snd]. rewrite Hreq1, Hlog1. world_norm.
    rewrite ?app_nil_r. by split_and!. }
  destruct (Atoi signal) as [n|e].
  2:{ exists (url :: new1). world_norm. rewrite Hreq1, Hlog1. world_norm. by split_and!. }
  destruct (IH (acc ++ items') n w2) as (new2 & Hreq2 & Hlog2 & Htok2).
  exists ((url :: new1) ++ new2). rewrite Hreq2, Hlog2, Hreq1, Hlog1, announced_app.
  world_norm. split_and!; [done | done |].
  apply (Forall_app _ (url :: new1) new2). by split.
Qed.

(** X8. Whatever the server answers, the project fetcher writes one log line
    per request, in the order of the requests and each holding the URL in
    full, and one more line if it ends in [log.Fatalf]; every URL it requests,
    and so every such log line, holds the access token. *)
Theorem every_request_is_logged_with_the_token (fuelMR fuel : nat) (g t : string)
    (w : World) :
  exists new : list string,
    requests (GetRepos fuelMR fuel g t w).2 = requests w ++ new
    /\ logged (GetRepos fuelMR fuel g t w).2
       = logged w
         ++ map (fun url => Printed ("Requesting " +:+ url +:+ nl)) new
         ++ last_words (GetRepos fuelMR fuel g t w).1
    /\ Forall (carries_token t) new.
Proof.
  destruct (GetRepositories_loop_log fuelMR g t fuel [] 1 w) as (new & H1 & H2 & H3).
  exists new. split_and!; [done | exact H2 | done].
Qed.

(** X10. When the signal is the decimal numeral of an integer [n]: if [n]
    fits the 64-bit [int], the merge-request loop goes on with page [n]; if
    it does not, the loop ends in [log.Fatalf] with the range error of
    [Atoi]. *)
Theorem decimal_signal_in_and_out_of_range (fuel : nat) (g t : string) (p : Project)
    (acc : list MergeRequest) (page : Z) (w : World) (response : Response)
    (items : list MergeRequest) (n : Z) (more : list string) :
  server (requests w) (mergesUrl g (Id p) t page) = inl response ->
  decode_merge_requests (Body response) = inl items ->
  Header response !! "X-Next-Page" = Some (pretty n :: more) ->
  (minInt64 <= n <= maxInt64 ->
   MRloop (S fuel) p g t acc page w
   = MRloop fuel p g t (acc ++ items) n (after_requests [mergesUrl g (Id p) t page] w))
  /\ (n < minInt64 \/ maxInt64 < n ->
      MRloop (S fuel) p g t acc page w
      = log_Fatalf (NumError "Atoi" (pretty n) ErrRange)
          (after_requests [mergesUrl g (Id p) t page] w)).
Proof.
  intros Hget Hbody Hheader.
  rewrite GetMergeRequests_loop_unfold. cbv zeta. rewrite Hget, Hbody.
  split; intros Hn.
  - by rewrite (on_signal_next _ (pretty n) more n) by (done || by apply Atoi_pretty).
  - pose proof (Atoi_pretty_out_of_range n Hn) as Hrange.
    rewrite (on_signal_malformed _ (pretty n) more (NumError "Atoi" (pretty n) ErrRange));
      [done | done | | done].
    intros Hempty. rewrite Hempty in Hrange. discriminate.
Qed.

(** X11. When the merge requests of a project are served as N pages, page
    [k] carrying the decimal numeral of [k + 1] as its signal and page N the
    empty signal, the merge-request fetcher, given fuel for N pages, requests
    the pages 1 to N in order and returns their items in page order; a
    single page without items gives the empty result. *)
Theorem merge_request_fetcher_visits_every_page (fuel : nat) (g t : string) (p : Project)
    (pages : list (list MergeRequest)) (w : World) :
  pages <> [] ->
  Z.of_nat (length pages) <= maxInt64 ->
  (forall (k : nat) (items : list MergeRequest),
      pages !! k = Some items ->
      serves_merge_requests server decode_merge_requests
        (mergesUrl g (Id p) t (Z.of_nat k + 1)) items
        (if decide (S k < length pages)%nat then pretty (Z.of_nat k + 2) else EmptyString)) ->
  (length pages <= fuel)%nat ->
  GetMRs fuel p g t w
  = (Returns (concat pages), after_requests (merge_page_urls g t (Id p) (length pages)) w)
  /\ length (merge_page_urls g t (Id p) (length pages)) = length pages
  /\ (pages = [[]] -> (GetMRs fuel p g t w).1 = Returns []).
Proof.
  intros Hne Hmax Hpages Hfuel.
  assert (GetMRs fuel p g t w
          = (Returns (concat pages),
             after_requests (merge_page_urls g t (Id p) (length pages)) w)) as Hrun.
  { apply GetMergeRequests_pages; [|done]. split; [done|].
    intros k items Hk. eexists. split; [by apply Hpages|].
    unfold chain_signal. destruct (decide (S k < length pages)%nat); [|done].
    replace (Z.of_nat k + 2) with (Z.of_nat (S k) + 1) by lia.
    apply Atoi_pretty. unfold minInt64. lia. }
  split_and!; [done | |].
  - unfold merge_page_urls. by rewrite length_map, length_seq.
  - intros ->. by rewrite Hrun.
Qed.

End FetcherMore.

(** ** The URLs *)

Lemma app_sep_inj (c : ascii) (a b x y : string) :
  occurrences c a = 0%nat -> occurrences c b = 0%nat ->
  a +:+ String c x = b +:+ String c y -> a = b /\ x = y.
Proof.
  revert b. induction a as [|d a IH]; intros [|d' b] Ha Hb Heq;
    rewrite ?string_app_cons, ?string_app_nil_l in Heq.
  - by injection Heq as ->.
  - injection Heq as -> _. cbn [occurrences] in Hb.
    by rewrite Ascii.eqb_refl in Hb.
  - injection Heq as -> _. cbn [occurrences] in Ha.
    by rewrite Ascii.eqb_refl in Ha.
  - injection Heq as -> Heq. cbn [occurrences] in Ha, Hb.
    destruct (IH b) as [-> ->]; [lia | lia | done | done].
Qed.

(** X9. For one host and token, the URL of a project page determines the
    page, the URL of a merge-request page determines the project id and the
    page, and no URL is both a project page and a merge-request page. *)
Theorem urls_tell_pages_and_projects_apart (g t : string) :
  (forall page page' : Z, projectsUrl g t page = projectsUrl g t page' -> page = page')
  /\ (forall id id' page page' : Z,
        mergesUrl g id t page = mergesUrl g id' t page' -> id = id' /\ page = page')
  /\ (forall id page page' : Z, projectsUrl g t page <> mergesUrl g id t page').
Proof.
  split_and!.
  - intros page page' H. rewrite !projectsUrl_shape in H.
    do 4 apply (inj (String.app _)) in H. by apply (inj pretty).
  - intros id id' page page' H. rewrite !mergesUrl_shape in H.
    do 2 apply (inj (String.app _)) in H.
    change ("/merge_requests?private_token=" +:+ ?r)
      with (String "/" ("merge_requests?private_token=" +:+ r)) in H.
    apply app_sep_inj in H as [Hid H];
      [| by apply pretty_Z_occurrences | by apply pretty_Z_occurrences].
    do 3 apply (inj (String.app _)) in H.
    split; by apply (inj pretty).
  - intros id page page' H.
    pose proof (is_projects_url_projects g t page) as Hp.
    rewrite H, is_projects_url_merges in Hp. discriminate.
Qed.

(** ** The further properties at work on the mock servers *)

Lemma merge_requests_are_the_decoded_pages_witness :
  exists new : list string,
    [m1; m2; m3] = decoded_along paged_server demo_merges (fun _ => true) [] new
    /\ ends_on_empty_signal paged_server [] new.
Proof.
  destruct (GetMergeRequests paged_server demo_merges 2 pA host tok no_world)
    as [out w'] eqn:E.
  pose proof E as E0. vm_compute in E0. injection E0 as <- <-.
  destruct (merge_requests_are_the_decoded_pages paged_server demo_merges
              2 host tok pA no_world _ _ E) as (new & _ & Hmrs & Hend & _).
  by exists new.
Defined.

Lemma projects_are_the_decoded_pages_witness :
  exists new : list string,
    3%nat = length (decoded_along paged_server demo_projects (is_projects_url host) [] new).
Proof.
  destruct (GetRepositories paged_server demo_projects demo_merges 2 2 host tok no_world)
    as [out w'] eqn:E.
  pose proof E as E0. vm_compute in E0. injection E0 as <- <-.
  destruct (projects_are_the_decoded_pages paged_server demo_projects demo_merges
              2 2 host tok no_world _ _ E) as (new & _ & _ & Hlen).
  by exists new.
Defined.

Lemma later_page_error_discards_earlier_pages_witness :
  (GetMergeRequests truncated_server demo_merges 3 pA host tok no_world).1
  = Fatal (TransportError "connection refused").
Proof.
  assert (forall (k : nat) (items : list MergeRequest),
             [[m1; m2]; [m3]] !! k = Some items ->
             exists signal,
               serves_merge_requests truncated_server demo_merges
                 (mergesUrl host (Id pA) tok (Z.of_nat k + 1)) items signal
               /\ Atoi signal = inl (Z.of_nat k + 2)) as Hpages.
  { intros [|[|k]] items Hk; cbn in Hk; inversion Hk; subst.
    - exists "2". split; [serve (page_response "merges-a-1" "2") | reflexivity].
    - exists "3". split; [serve (page_response "merges-a-2" "3") | reflexivity]. }
  exact (f_equal fst
           (later_page_error_discards_earlier_pages truncated_server demo_merges
              0 host tok pA [[m1; m2]; [m3]] (TransportError "connection refused")
              no_world Hpages (fun _ => or_introl eq_refl))).
Defined.

Lemma failed_project_ends_the_fetch_witness :
  exists w' : World,
    GetRepositories refusing_server trio_projects demo_merges 1 1 host tok no_world
    = (Fatal (TransportError "connection refused"), w')
    /\ requests w' = [projectsUrl host tok 1; mergesUrl host 1 tok 1; mergesUrl host 2 tok 1].
Proof.
  assert (serves_projects refusing_server trio_projects (projectsUrl host tok 1)
            ([pA] ++ pB :: [pC]) EmptyString) as Hpage
    by serve (page_response "projects-3" EmptyString).
  assert (Forall (fun q => merge_pages_mocked refusing_server demo_merges host tok (Id q)
                             ((fun _ : Z => [[m4]]) (Id q))
                           /\ (length ((fun _ : Z => [[m4]]) (Id q)) <= 1)%nat) [pA])
    as Hgood.
  { repeat constructor; [discriminate|].
    intros [|k] items Hk; cbn in Hk; inversion Hk; subst.
    exists EmptyString.
    split; [serve (page_response "merges-c" EmptyString) | vm_compute; reflexivity]. }
  exact (failed_project_ends_the_fetch refusing_server trio_projects demo_merges
           0 0 host tok (fun _ => [[m4]]) [pA] [pC] pB EmptyString
           (TransportError "connection refused") [] 1 no_world Hpage Hgood
           (fun _ => eq_refl)).
Defined.

Lemma self_pointing_page_never_ends_witness :
  GetMergeRequests looping_server demo_merges 3 pA host tok no_world
  = (OutOfFuel, after_requests (replicate 3 (mergesUrl host 1 tok 1)) no_world).
Proof.
  apply (self_pointing_page_never_ends looping_server demo_merges 3 host tok pA
           [m1; m2] "1" no_world);
    [serve (page_response "merges-a-1" "1") | reflexivity].
Defined.

Lemma decimal_signal_in_and_out_of_range_witness :
  GetMergeRequests (signal_server "7") demo_merges 2 pA host tok no_world
  = GetMergeRequests_loop (signal_server "7") demo_merges 1 pA host tok [m1; m2] 7
      (after_requests [mergesUrl host 1 tok 1] no_world).
Proof.
  refine (proj1 (decimal_signal_in_and_out_of_range (signal_server "7") demo_merges
                   1 host tok pA [] 1 no_world (page_response "merges-a-1" "7")
                   [m1; m2] 7 [] _ _ _) _);
    try (vm_compute; reflexivity).
  vm_compute. split; discriminate.
Defined.

Lemma merge_request_fetcher_visits_every_page_witness :
  GetMergeRequests paged_server demo_merges 2 pA host tok no_world
  = (Returns [m1; m2; m3],
     after_requests [mergesUrl host 1 tok 1; mergesUrl host 1 tok 2] no_world).
Proof.
  refine (proj1 (merge_request_fetcher_visits_every_page paged_server demo_merges
                   2 host tok pA [[m1; m2]; [m3]] no_world _ _ _ _)).
  - discriminate.
  - vm_compute. discriminate.
  - intros [|[|k]] items Hk; cbn in Hk; inversion Hk; subst.
    + serve (page_response "merges-a-1" "2").
    + serve (page_response "merges-a-2" EmptyString).
  - cbn. lia.
Defined.

(** * The lines of the rendered text *)

Lemma filter_map_none {A B : Type} (P : B -> Prop) `{!forall x, Decision (P x)}
    (f : A -> B) (l : list A) :
  (forall x, ~ P (f x)) -> filter P (map f l) = [].
Proof.
  intros Hnone. induction l as [|x l IH]; [reflexivity|].
  cbn [map]. by rewrite filter_cons_False, IH.
Qed.

Lemma filter_map_all {A B : Type} (P : B -> Prop) `{!forall x, Decision (P x)}
    (f : A -> B) (l : list A) :
  (forall x, P (f x)) -> filter P (map f l) = map f l.
Proof.
  intros Hall. induction l as [|x l IH]; [reflexivity|].
  cbn [map]. by rewrite filter_cons_True, IH.
Qed.

Lemma repo_label_slashes_to_underscores (project : Project) :
  repo_label project = slashes_to_underscores (PathWithNamespace project).
Proof. apply ReplaceAllString_join. Qed.

Lemma PrometheusStats_expected_lines (project : Project) :
  PrometheusStats project
  = render_lines
      (expected_lines (slashes_to_underscores (PathWithNamespace project)) project).
Proof.
  rewrite PrometheusStats_lines, <- repo_label_slashes_to_underscores. reflexivity.
Qed.

Ltac named_lines :=
  repeat first
    [ rewrite filter_cons_True by reflexivity
    | rewrite filter_cons_False by (lazy; discriminate)
    | rewrite filter_nil ].

(** C7, amended. For every project whose path holds no newline and whose
    merge requests hold none in their state, merge status and target branch,
    the rendered text, cut at its newlines, is an empty first piece and then
    exactly one line for each of the eight counters, carrying the counter's
    value, and exactly one line per merge request, in order, carrying its
    state, merge status and target branch as labels.  Every line has the
    label [repo] first, whose value is the path with its slashes replaced by
    three underscores: the pieces of the path between the slashes, joined by
    three underscores. *)
Theorem rendered_metric_lines (project : Project) :
  occurrences newline (PathWithNamespace project) = 0%nat ->
  Forall (fun m => occurrences newline (State m) = 0%nat
                   /\ occurrences newline (MergeStatus m) = 0%nat
                   /\ occurrences newline (TargetBranch m) = 0%nat)
    (MergeRequests project) ->
  let label := slashes_to_underscores (PathWithNamespace project) in
  let lines := expected_lines label project in
  let pieces := split_on newline (PrometheusStats project) in
  pieces = EmptyString :: map render_line lines
  /\ length pieces = (9 + length (MergeRequests project))%nat
  /\ (forall name : string,
        name ∈ counter_names -> length (lines_named name pieces) = 1%nat)
  /\ lines_named "gitlab_project_merge_request" pieces
     = map (fun m => render_line (merge_request_line label m)) (MergeRequests project)
  /\ (forall (k : nat) (m : MergeRequest),
        MergeRequests project !! k = Some m ->
        pieces !! (8 + k)%nat = Some (render_line (merge_request_line label m))
        /\ metric_labels (merge_request_line label m)
           = [ ("repo", label); ("state", State m);
               ("merge_status", MergeStatus m); ("target_branch", TargetBranch m) ])
  /\ Forall (fun l => head (metric_labels l) = Some ("repo", label)) lines
  /\ occurrences slash label = 0%nat.
Proof.
  intros Hpath Hmrs label lines pieces.
  assert (repo_label project = label) as Hrepo
    by apply repo_label_slashes_to_underscores.
  assert (occurrences newline label = 0%nat) as Hlabel.
  { rewrite <- Hrepo. unfold repo_label. by rewrite occurrences_ReplaceAllString_other. }
  assert (pieces = EmptyString :: map render_line lines) as Hpieces.
  { subst pieces lines. rewrite PrometheusStats_expected_lines. fold label.
    apply split_on_render_lines. unfold expected_lines.
    rewrite !Forall_app. split_and!.
    - repeat constructor; by apply counter_line_single.
    - apply Forall_forall. intros l Hl.
      apply list_elem_of_In, in_map_iff in Hl as (m & <- & Hm).
      apply list_elem_of_In in Hm.
      rewrite Forall_forall in Hmrs. destruct (Hmrs m Hm) as (H1 & H2 & H3).
      by apply merge_request_line_single.
    - repeat constructor. by apply counter_line_single. }
  assert (forall l, l ∈ map (merge_request_line label) (MergeRequests project) ->
                    head (metric_labels l) = Some ("repo", label)) as Hkeyed.
  { intros l Hl. by apply list_elem_of_In, in_map_iff in Hl as (m & <- & _). }
  split_and!.
  - exact Hpieces.
  - rewrite Hpieces. subst lines. unfold expected_lines.
    cbn [length]. rewrite length_map, !length_app, length_map. cbn. lia.
  - intros name Hname. rewrite Hpieces. subst lines.
    unfold lines_named, expected_lines, counter_names in *.
    rewrite !map_app, map_map. cbn [map app].
    repeat (apply elem_of_cons in Hname as [->|Hname]);
      [..|by apply elem_of_nil in Hname];
      named_lines; rewrite filter_app;
      (rewrite filter_map_none by (intros m; lazy; discriminate));
      named_lines; reflexivity.
  - rewrite Hpieces. subst lines. unfold lines_named, expected_lines.
    rewrite !map_app, map_map. cbn [map app].
    named_lines. rewrite filter_app.
    rewrite filter_map_all by (intros m; reflexivity).
    named_lines. by rewrite app_nil_r.
  - intros k m Hk. split; [|reflexivity].
    rewrite Hpieces. subst lines. unfold expected_lines.
    rewrite !map_app, map_map. cbn [map app].
    change (8 + k)%nat with (S (S (S (S (S (S (S (S k)))))))).
    rewrite !lookup_cons.
    rewrite lookup_app_l by (rewrite length_map; by eapply lookup_lt_Some).
    by rewrite list_lookup_fmap, Hk.
  - subst lines. unfold expected_lines. rewrite !Forall_app. split_and!.
    + repeat constructor.
    + by apply Forall_forall.
    + repeat constructor.
  - rewrite <- Hrepo. unfold repo_label. by apply ReplaceAllString_clean.
Qed.

Lemma rendered_metric_lines_witness :
  length (split_on newline (PrometheusStats (SetMergeRequests pA [m1; m2; m3]))) = 12%nat
  /\ length (lines_named "gitlab_project_merge_request"
               (split_on newline (PrometheusStats (SetMergeRequests pA [m1; m2; m3]))))
     = 3%nat.
Proof.
  assert (occurrences newline (PathWithNamespace (SetMergeRequests pA [m1; m2; m3]))
          = 0%nat) as H1 by reflexivity.
  assert (Forall (fun m => occurrences newline (State m) = 0%nat
                           /\ occurrences newline (MergeStatus m) = 0%nat
                           /\ occurrences newline (TargetBranch m) = 0%nat)
            (MergeRequests (SetMergeRequests pA [m1; m2; m3]))) as H2
    by (repeat constructor).
  pose proof (rendered_metric_lines (SetMergeRequests pA [m1; m2; m3]) H1 H2) as T.
  cbv zeta in T. destruct T as (_ & Hlen & _ & Hmr & _).
  split; [exact Hlen|]. rewrite Hmr. reflexivity.
Defined.

(** C7, as stated, fails: the values are copied into the text as they are,
    so a merge request whose target branch holds a newline adds a line.
    Here the text of a project with one merge request has eleven pieces
    instead of ten, and two of them start as a stars line. *)
Lemma newline_in_a_label_adds_a_line :
  length (MergeRequests pA_two_lines) = 1%nat
  /\ length (split_on newline (PrometheusStats pA_two_lines)) = 11%nat
  /\ length (lines_named "gitlab_project_stars"
               (split_on newline (PrometheusStats pA_two_lines))) = 2%nat.
Proof. split_and!; vm_compute; reflexivity. Qed.

(** * Complete merge-request sequences, and the fetcher's effects *)

Section FetcherSequences.

Variable server : list string -> string -> Response + error.
Variable decode_projects : string -> list Project + error.
Variable decode_merge_requests : string -> list MergeRequest + error.

Local Abbreviation MRloop := (GetMergeRequests_loop server decode_merge_requests).
Local Abbreviation GetMRs := (GetMergeRequests server decode_merge_requests).
Local Abbreviation attach := (attach_loop server decode_merge_requests).
Local Abbreviation GetRepos := (GetRepositories server decode_projects decode_merge_requests).

(** A returning merge-request loop has walked the chain of pages from its
    page to the page with the empty signal. *)
Lemma GetMergeRequests_loop_chain (g t : string) (p : Project) :
  forall (fuel : nat) (acc : list MergeRequest) (page : Z) (w w' : World)
         (mrs : list MergeRequest),
    MRloop fuel p g t acc page w = (Returns mrs, w') ->
    exists (new : list string) (fetched : list MergeRequest),
      mrs = acc ++ fetched
      /\ requests w' = requests w ++ new
      /\ fetched_chain server decode_merge_requests g t (Id p) (requests w) page new fetched.
Proof.
  induction fuel as [|fuel IH]; intros acc page w w' mrs Hrun; [discriminate|].
  rewrite GetMergeRequests_loop_unfold in Hrun. cbv zeta in Hrun.
  set (url := mergesUrl g (Id p) t page) in *.
  destruct (server (requests w) url) as [response|e] eqn:Hget; [|discriminate].
  destruct (decode_merge_requests (Body response)) as [items|e] eqn:Hbody; [|discriminate].
  unfold on_signal in Hrun.
  destruct (map_index (Header response) "X-Next-Page" !! 0%nat) as [signal|] eqn:Hsig;
    [|discriminate].
  assert (exists more, Header response !! "X-Next-Page" = Some (signal :: more))
    as [more Hheader].
  { unfold map_index in Hsig.
    destruct (Header response !! "X-Next-Page") as [[|s more]|]; try done.
    exists more. cbn in Hsig. congruence. }
  destruct (decide (signal = EmptyString)) as [Hempty|Hne].
  { injection Hrun as <- <-. exists [url], items. split_and!; [done | done |].
    cbn [fetched_chain]. split; [done|].
    exists response, items, signal, more. split_and!; [done | done | done |].
    by rewrite decide_True. }
  destruct (Atoi signal) as [n|e] eqn:Hatoi; [|discriminate].
  apply IH in Hrun as (new & fetched & -> & Hreq & Hchain).
  rewrite requests_after in Hreq, Hchain.
  exists (url :: new), (items ++ fetched). split_and!.
  - by rewrite app_assoc.
  - by rewrite Hreq, <- app_assoc.
  - cbn [fetched_chain]. split; [done|].
    exists response, items, signal, more. split_and!; [done | done | done |].
    rewrite decide_False by done. by exists n, fetched.
Qed.

Lemma fully_fetched_complete (fuelMR : nat) (g t : string) (lo hi : list string)
    (p : Project) :
  fully_fetched server decode_merge_requests fuelMR g t lo hi p ->
  carries_complete_sequence server decode_merge_requests g t lo hi p.
Proof.
  intros (w1 & w2 & Hlo & Hhi & Hrun).
  apply GetMergeRequests_loop_chain in Hrun as (new & fetched & Hmrs & Hreq & Hchain).
  cbn [app] in Hmrs. subst fetched.
  exists (requests w1), new. split_and!; [done | by rewrite <- Hreq | done].
Qed.

(** C8. Whenever the project fetcher returns a collection, every project in
    it carries its complete merge-request sequence: the items of the pages
    of its merge-request endpoint, requested during this execution from page
    1 on, each next page being the one the signal named, up to the page
    with the empty signal.  Moreover every request of the execution got an
    acceptable answer: a response, a body that decodes, a signal that is
    empty or an integer.  So after a transport, decode or signal error at
    any point nothing is returned: the outcome is then the end of the
    process, which carries no collection. *)
Theorem no_partial_collection (fuelMR fuel : nat) (g t : string) (w w' : World)
    (ps : list Project) :
  GetRepos fuelMR fuel g t w = (Returns ps, w') ->
  Forall (carries_complete_sequence server decode_merge_requests g t
            (requests w) (requests w')) ps
  /\ exists new,
       requests w' = requests w ++ new
       /\ accepted_run server decode_projects decode_merge_requests g (requests w) new
       /\ forall (before after : list string) (url : string),
            new = before ++ url :: after ->
            exists response, server (requests w ++ before) url = inl response.
Proof.
  intros Hrun.
  destruct (GetRepositories_returns_fetched server decode_projects decode_merge_requests
              fuelMR fuel g t w w' ps Hrun) as [Hall Hrest].
  split; [|exact Hrest].
  eapply Forall_impl; [exact Hall|]. intros p. apply fully_fetched_complete.
Qed.


End FetcherSequences.

Lemma no_partial_collection_witness :
  exists (ps : list Project) (w' : World),
    GetRepositories paged_server demo_projects demo_merges 2 2 host tok no_world
    = (Returns ps, w')
    /\ length ps = 3%nat
    /\ Forall (carries_complete_sequence paged_server demo_merges host tok []
                 (requests w')) ps.
Proof.
  destruct (GetRepositories paged_server demo_projects demo_merges 2 2 host tok no_world)
    as [out w'] eqn:E.
  pose proof E as E0. vm_compute in E0. injection E0 as <- <-.
  eexists _, _. split; [reflexivity|]. split; [reflexivity|].
  exact (proj1 (no_partial_collection paged_server demo_projects demo_merges
                  2 2 host tok no_world _ _ E)).
Defined.


